(** * ArucoReader: the lighting-fixture layout of [FormScreen]

    A shallow embedding of [handleCalculate] and [renderFocusGrid], the two
    closures of the [FormScreen] component that carry the arithmetic of the
    application.

    JavaScript has one numeric type.  The component is written once below,
    over an interface [JSNumber] holding the operations it applies to
    numbers, and read at two instances:

    - [Exact]: the real numbers, which is the reading the specification
      gives to its quantities ("positive real");
    - [Double]: IEEE 754 binary64 as the kernel's primitive floats, which is
      what the JavaScript engine runs, used to evaluate the handler on
      concrete inputs. *)

From Stdlib Require Import List String Bool ZArith Lia Lra Psatz.
From Stdlib Require Import Reals.
From Stdlib Require Import Floats Uint63.
Import ListNotations.

Set Implicit Arguments.

(** ** The numbers of the component *)

Class JSNumber (num : Type) : Type := {
  lit : Z -> num;              (* an integer literal: 0, 1, 2, 40 *)
  add : num -> num -> num;     (* a + b *)
  sub : num -> num -> num;     (* a - b *)
  mul : num -> num -> num;     (* a * b *)
  div : num -> num -> num;     (* a / b *)
  Math_sqrt : num -> num;
  Math_ceil : num -> num;
  ltb : num -> num -> bool;    (* a < b *)
  leb : num -> num -> bool;    (* a <= b *)
  isNaN : num -> bool
}.

Section FormScreen.

Context {num : Type} `{JSNumber num}.

(** [route.params.dimensions], as the detection service returned it. *)
Record Dimensions : Type := { width : num; height : num }.

(** The objects [{ x, y }] pushed on [calculatedDistances]. *)
Record Distance : Type := { x : num; y : num }.

(** The component state that the handler writes: [focusCount] and
    [distances], both [null] until the first successful calculation. *)
Record FormState : Type := {
  focusCount : option num;
  distances : option (list Distance)
}.

(** What one run of the handler does to the outside, in order. *)
Inductive Effect : Type :=
| Alert (title message : string)
| SetFocusCount (n : num)
| SetDistances (ds : list Distance).

Definition applyEffect (st : FormState) (e : Effect) : FormState :=
  match e with
  | Alert _ _ => st
  | SetFocusCount n => {| focusCount := Some n; distances := distances st |}
  | SetDistances ds => {| focusCount := focusCount st; distances := Some ds |}
  end.

Definition runEffects (st : FormState) (es : list Effect) : FormState :=
  fold_left applyEffect es st.

(** [for (let i = start; i < bound; i++) body], the only loop shape of the
    component.  The counter is a number like any other, so the loop is
    driven by fuel; [None] is a run that the fuel did not cover. *)
Fixpoint for_loop {A : Type} (fuel : nat) (i bound : num)
    (body : num -> A -> option A) (acc : A) : option A :=
  match fuel with
  | O => None
  | S fuel' =>
      if ltb i bound then
        match body i acc with
        | Some acc' => for_loop fuel' (add i (lit 1)) bound body acc'
        | None => None
        end
      else Some acc
  end.

(** [const numCols = Math.ceil(Math.sqrt(numFoci))]. *)
Definition numCols (numFoci : num) : num := Math_ceil (Math_sqrt numFoci).

(** [const numRows = Math.ceil(numFoci / numCols)]. *)
Definition numRows (numFoci : num) : num :=
  Math_ceil (div numFoci (numCols numFoci)).

(** The guard of [handleCalculate]:
    [isNaN(lumensValue) || isNaN(luxesValue) || lumensValue <= 0 || luxesValue <= 0]. *)
Definition invalidValues (lumensValue luxesValue : num) : bool :=
  isNaN lumensValue || isNaN luxesValue
  || leb lumensValue (lit 0) || leb luxesValue (lit 0).

(** [numFoci], from [const requiredLumens] to [Math.ceil(calculatedFocusCount)]. *)
Definition calculateNumFoci (dimensions : Dimensions)
    (lumensValue luxesValue : num) : num :=
  let area := mul (width dimensions) (height dimensions) in
  let requiredLumens := mul luxesValue area in
  let calculatedFocusCount := div requiredLumens lumensValue in
  Math_ceil calculatedFocusCount.

(** The placement part of [handleCalculate]: from [const numCols] to the
    end of the two loops that fill [calculatedDistances]. *)
Definition calculateDistances (fuel : nat) (dimensions : Dimensions)
    (numFoci : num) : option (list Distance) :=
  let numCols := numCols numFoci in
  let numRows := numRows numFoci in
  let spacingX := div (width dimensions) numCols in
  let spacingY := div (height dimensions) numRows in
  let edgeDistanceX := div spacingX (lit 2) in
  let edgeDistanceY := div spacingY (lit 2) in
  for_loop fuel (lit 0) numRows
    (fun row calculatedDistances =>
       for_loop fuel (lit 0) numCols
         (fun col calculatedDistances =>
            let x := add edgeDistanceX (mul col spacingX) in
            let y := add edgeDistanceY (mul row spacingY) in
            if leb x (width dimensions) && leb y (height dimensions)
            then Some (calculatedDistances ++ [{| x := x; y := y |}])
            else Some calculatedDistances)
         calculatedDistances)
    [].

(** [handleCalculate], on the two values [parseFloat] returned for the
    text fields ([NaN] for an empty or non-numeric field). *)
Definition handleCalculate (fuel : nat) (dimensions : Dimensions)
    (lumensValue luxesValue : num) : option (list Effect) :=
  if invalidValues lumensValue luxesValue then
    Some [Alert "Error" "Please enter valid values for lumens and luxes."]
  else
    let numFoci := calculateNumFoci dimensions lumensValue luxesValue in
    match calculateDistances fuel dimensions numFoci with
    | Some calculatedDistances =>
        Some [SetFocusCount numFoci; SetDistances calculatedDistances]
    | None => None
    end.

(** The [<View key=... style={[styles.focus, {width, height, left, top}]} />]
    elements of the grid; the key is the pair the template joins. *)
Record FocusView : Type := {
  key : num * num;
  focusSize : num;
  left : num;
  top : num
}.

(** What [renderFocusGrid] returns: [null], or the container with its
    size and children. *)
Inductive Rendered : Type :=
| RenderedNull
| RenderedGrid (containerWidth containerHeight : num) (grid : list FocusView).

(** [renderFocusGrid(numFoci)]; [screenWidth] is
    [Dimensions.get('window').width]. *)
Definition renderFocusGrid (fuel : nat) (screenWidth : num)
    (dimensions : Dimensions) (numFoci : num) : option Rendered :=
  if leb numFoci (lit 0) then Some RenderedNull
  else
    let aspectRatio := div (width dimensions) (height dimensions) in
    let containerWidth := sub screenWidth (lit 40) in
    let containerHeight := div containerWidth aspectRatio in
    let numCols := numCols numFoci in
    let numRows := numRows numFoci in
    let focusSize := lit 20 in
    let spacingX := div containerWidth numCols in
    let spacingY := div containerHeight numRows in
    let edgeDistanceX := div spacingX (lit 2) in
    let edgeDistanceY := div spacingY (lit 2) in
    match
      for_loop fuel (lit 0) numRows
        (fun row grid =>
           for_loop fuel (lit 0) numCols
             (fun col grid =>
                let x := add edgeDistanceX (mul col spacingX) in
                let y := add edgeDistanceY (mul row spacingY) in
                if leb x containerWidth && leb y containerHeight
                then Some (grid ++ [{| key := (row, col); focusSize := focusSize;
                                       left := x; top := y |}])
                else Some grid)
             grid)
        []
    with
    | Some grid => Some (RenderedGrid containerWidth containerHeight grid)
    | None => None
    end.

End FormScreen.

Arguments Dimensions num : clear implicits.
Arguments Distance num : clear implicits.
Arguments FormState num : clear implicits.
Arguments Effect num : clear implicits.
Arguments FocusView num : clear implicits.
Arguments Rendered num : clear implicits.

(** ** Binary64: the numbers of the engine *)

Module Double.

Definition two52 : float := Eval cbv in PrimFloat.of_uint63 4503599627370496%uint63.

Definition float_of_Z (z : Z) : float :=
  if (z <? 0)%Z then PrimFloat.opp (PrimFloat.of_uint63 (Uint63.of_Z (- z)))
  else PrimFloat.of_uint63 (Uint63.of_Z z).

(** [Math.ceil]: the least integral value not below the argument.  Values
    of magnitude at least 2^52, the infinities and NaN are returned as
    they are; below 2^52, adding and removing 2^52 rounds to the nearest
    integer, which is then bumped when it fell short. *)
Definition ceil (v : float) : float :=
  if PrimFloat.is_nan v then v
  else if PrimFloat.leb two52 (PrimFloat.abs v) then v
  else if PrimFloat.eqb v PrimFloat.zero then v
  else
    let t := if PrimFloat.ltb PrimFloat.zero v
             then PrimFloat.sub (PrimFloat.add v two52) two52
             else PrimFloat.add (PrimFloat.sub v two52) two52 in
    let c := if PrimFloat.ltb t v then PrimFloat.add t PrimFloat.one else t in
    if PrimFloat.eqb c PrimFloat.zero then PrimFloat.neg_zero else c.

#[export] Instance float_number : JSNumber float := {|
  lit := float_of_Z;
  add := PrimFloat.add;
  sub := PrimFloat.sub;
  mul := PrimFloat.mul;
  div := PrimFloat.div;
  Math_sqrt := PrimFloat.sqrt;
  Math_ceil := ceil;
  ltb := PrimFloat.ltb;
  leb := PrimFloat.leb;
  isNaN := PrimFloat.is_nan
|}.

(** The two inequalities of the grid shape on the count [n], evaluated in
    binary64: [n <= numCols * numRows] and [(numCols - 1) * numRows < n]. *)
Definition gridShapeHolds (n : Z) : bool :=
  let numFoci := float_of_Z n in
  PrimFloat.leb numFoci (PrimFloat.mul (numCols numFoci) (numRows numFoci))
  && PrimFloat.ltb
       (PrimFloat.mul (PrimFloat.sub (numCols numFoci) PrimFloat.one) (numRows numFoci))
       numFoci.

End Double.

(** ** Real numbers: the numbers of the specification *)

Module Exact.

Local Open Scope R_scope.

(** The least integer not below [r]. *)
Definition Rceil (r : R) : Z := (1 - up (- r))%Z.

Definition Rltb (a b : R) : bool := if Rlt_dec a b then true else false.
Definition Rleb (a b : R) : bool := if Rle_dec a b then true else false.

#[export] Instance R_number : JSNumber R := {|
  lit := IZR;
  add := Rplus;
  sub := Rminus;
  mul := Rmult;
  div := Rdiv;
  Math_sqrt := R_sqrt.sqrt;
  Math_ceil := fun r => IZR (Rceil r);
  ltb := Rltb;
  leb := Rleb;
  isNaN := fun _ => false
|}.

(** The layout as the specification words it, to compare the loops with.
    The centre of cell [(row, col)] of a grid of [nr] rows and [nc] columns
    laid over a [w] by [h] rectangle: [spacingX / 2 + col * spacingX] across
    and [spacingY / 2 + row * spacingY] down, with [spacingX = w / nc] and
    [spacingY = h / nr]. *)
Definition cellCenter (w h : R) (nr nc : nat) (row col : nat) : Distance R :=
  {| x := w / INR nc / 2 + INR col * (w / INR nc);
     y := h / INR nr / 2 + INR row * (h / INR nr) |}.

(** All cell centres, rows outermost and top to bottom, columns left to
    right within a row. *)
Definition gridCells (w h : R) (nr nc : nat) : list (Distance R) :=
  flat_map (fun row => map (fun col => cellCenter w h nr nc row col) (seq 0 nc))
           (seq 0 nr).

(** The dot that [renderFocusGrid] draws for cell [(row, col)] of a
    [cw] by [ch] container. *)
Definition focusAt (cw ch : R) (nr nc : nat) (row col : nat) : FocusView R :=
  {| key := (INR row, INR col);
     focusSize := 20;
     left := x (cellCenter cw ch nr nc row col);
     top := y (cellCenter cw ch nr nc row col) |}.

(** The inclusion rule: [x <= width] and [y <= height]. *)
Definition within (w h : R) (p : Distance R) : bool :=
  Rleb (x p) w && Rleb (y p) h.

(** [numCols] and [numRows] of an integer count, as integers. *)
Definition gridCols (n : Z) : Z := Rceil (R_sqrt.sqrt (IZR n)).
Definition gridRows (n : Z) : Z := Rceil (IZR n / IZR (gridCols n)).

End Exact.

(** ** The result block of [FormScreen] *)

Section FormScreenView.

Context {num : Type} `{JSNumber num}.

(** A line of the list under "Distances:", [Focus {index + 1}: x: ..., y: ...];
    the two numbers are kept as they are, before [toFixed(2)] prints them. *)
Record DistanceLine : Type := {
  focusLabel : nat;
  lineX : num;
  lineY : num
}.

(** What is drawn under the Calculate button: the count, the grid and the
    list. *)
Record ResultBlock : Type := {
  lightsNeeded : num;
  focusGrid : Rendered num;
  distanceLines : list DistanceLine
}.

(** [distances && distances.map((dist, index) => ...)]. *)
Definition renderDistances (distances : option (list (Distance num)))
    : list DistanceLine :=
  match distances with
  | None => []
  | Some ds =>
      map (fun line => {| focusLabel := fst line;
                          lineX := x (snd line);
                          lineY := y (snd line) |})
          (combine (seq 1 (List.length ds)) ds)
  end.

(** [focusCount !== null && (...)]: nothing while no count is stored, the
    block otherwise. *)
Definition renderResults (fuel : nat) (screenWidth : num)
    (dimensions : Dimensions num) (st : FormState num)
    : option (option ResultBlock) :=
  match focusCount st with
  | None => Some None
  | Some n =>
      match renderFocusGrid fuel screenWidth dimensions n with
      | Some grid =>
          Some (Some {| lightsNeeded := n;
                        focusGrid := grid;
                        distanceLines := renderDistances (distances st) |})
      | None => None
      end
  end.

End FormScreenView.

Arguments DistanceLine num : clear implicits.
Arguments ResultBlock num : clear implicits.

(** ** The counters of the loops *)

Section LoopCounters.

Context {num : Type} `{JSNumber num}.

(** The value of a loop counter that starts at [0] after [k] rounds of
    [i++]. *)
Definition counter (k : nat) : num :=
  Nat.iter k (fun i => add i (lit 1)) (lit 0).

(** [for (let i = 0; i < bound; i++)] makes exactly [m] rounds: the test
    [i < bound] passes at the first [m] values of the counter and fails at
    the next. *)
Definition iterates (bound : num) (m : nat) : Prop :=
  (forall j, (j < m)%nat -> ltb (counter j) bound = true)
  /\ ltb (counter m) bound = false.

End LoopCounters.

(** ** Signs in binary64 *)

Module Binary64.

(** A value that is not below zero and not the negative zero: NaN, or a
    zero, a finite number or an infinity with a clear sign bit. *)
Definition SFnotNegative (v : spec_float) : Prop :=
  match v with
  | S754_nan => True
  | S754_zero s | S754_infinity s | S754_finite s _ _ => s = false
  end.

Definition notNegative (v : float) : Prop := SFnotNegative (Prim2SF v).

End Binary64.

(** ** The navigator of [App] *)

Module App.

(** The screens that [Stack.Navigator] registers, in order, and the one it
    opens on. *)
Definition screens : list string := ["Home"; "Form"]%string.
Definition initialRouteName : string := "Home"%string.

End App.

(** ** The capture screen, [HomeScreen]

    The component holds seven pieces of state and changes them through
    their setters only.  Every setter is called with a value, never with an
    updater, so a run of a handler is the list of its calls in order.  What
    the camera and the server answer is an argument of the handler that
    awaits it. *)

Module HomeScreen.

Local Open Scope string_scope.

Section Capture.

(** The type of the [dimensions] field of the server's reply. *)
Variable D : Type.

(** [imageDimensions]: the empty array it starts as, or what a reply held. *)
Inductive ImageDimensions : Type :=
| NoDimensions
| ReplyDimensions (d : D).

Record State : Type := {
  hasCameraPermission : option bool;
  image : option string;
  processingImage : option string;
  imageDimensions : ImageDimensions;
  error : option string;
  showProcessed : bool;
  loading : bool
}.

(** The values of the [useState] calls. *)
Definition initialState : State :=
  {| hasCameraPermission := None; image := None; processingImage := None;
     imageDimensions := NoDimensions; error := None;
     showProcessed := false; loading := false |}.

(** What [takePictureAsync] settles with. *)
Inductive Shot : Type :=
| Captured (uri : string)
| ShotFailed (e : string).

(** The error that [axios.post] rejects with: [e.response.data] when the
    server answered, and [e.message]. *)
Record RequestError : Type := {
  response : option string;
  message : string
}.

(** What [axios.post] settles with: [response.data.image] and
    [response.data.dimensions], or an error. *)
Inductive Reply : Type :=
| Replied (base64Image : string) (dimensions : D)
| Rejected (e : RequestError).

Inductive Effect : Type :=
| SetHasCameraPermission (v : bool)
| SetImage (v : option string)
| SetProcessingImage (v : option string)
| SetImageDimensions (v : ImageDimensions)
| SetError (v : option string)
| SetShowProcessed (v : bool)
| SetLoading (v : bool)
| Post (url : string) (fileUri fileType fileName : string)
| LogDimensions (d : D)
| LogShotError (e : string)
| LogRequestError (label detail : string)
| Navigate (route : string) (dimensions : ImageDimensions).

Definition applyEffect (st : State) (e : Effect) : State :=
  match e with
  | SetHasCameraPermission v =>
      {| hasCameraPermission := Some v; image := image st;
         processingImage := processingImage st; imageDimensions := imageDimensions st;
         error := error st; showProcessed := showProcessed st; loading := loading st |}
  | SetImage v =>
      {| hasCameraPermission := hasCameraPermission st; image := v;
         processingImage := processingImage st; imageDimensions := imageDimensions st;
         error := error st; showProcessed := showProcessed st; loading := loading st |}
  | SetProcessingImage v =>
      {| hasCameraPermission := hasCameraPermission st; image := image st;
         processingImage := v; imageDimensions := imageDimensions st;
         error := error st; showProcessed := showProcessed st; loading := loading st |}
  | SetImageDimensions v =>
      {| hasCameraPermission := hasCameraPermission st; image := image st;
         processingImage := processingImage st; imageDimensions := v;
         error := error st; showProcessed := showProcessed st; loading := loading st |}
  | SetError v =>
      {| hasCameraPermission := hasCameraPermission st; image := image st;
         processingImage := processingImage st; imageDimensions := imageDimensions st;
         error := v; showProcessed := showProcessed st; loading := loading st |}
  | SetShowProcessed v =>
      {| hasCameraPermission := hasCameraPermission st; image := image st;
         processingImage := processingImage st; imageDimensions := imageDimensions st;
         error := error st; showProcessed := v; loading := loading st |}
  | SetLoading v =>
      {| hasCameraPermission := hasCameraPermission st; image := image st;
         processingImage := processingImage st; imageDimensions := imageDimensions st;
         error := error st; showProcessed := showProcessed st; loading := v |}
  | Post _ _ _ _ | LogDimensions _ | LogShotError _ | LogRequestError _ _
  | Navigate _ _ => st
  end.

Definition run (st : State) (es : list Effect) : State :=
  fold_left applyEffect es st.

(** A string or [null] in a condition: [null] and the empty string count
    as false. *)
Definition truthy (v : option string) : bool :=
  match v with
  | Some s => negb (s =? "")
  | None => false
  end.

(** The effect run at mount, once [requestCameraPermissionsAsync] has
    answered with [status]. *)
Definition permissionAnswered (status : string) : list Effect :=
  [SetHasCameraPermission (status =? "granted")].

(** [takePicture]: [cameraReady] is [cameraRef.current] in the condition,
    [shot] is what the camera settles with. *)
Definition takePicture (cameraReady : bool) (shot : Shot) : list Effect :=
  if cameraReady then
    match shot with
    | Captured uri => [SetImage (Some uri); SetShowProcessed false]
    | ShotFailed e => [LogShotError e]
    end
  else [].

(** [processImage] up to the [await]: the spinner is switched on and the
    captured file is posted. *)
Definition processImage_request (st : State) : list Effect :=
  match image st with
  | Some uri =>
      if truthy (Some uri) then
        [SetLoading true;
         Post "https://arucoback.onrender.com/process_image" uri "image/jpeg" "photo.jpg"]
      else []
  | None => []
  end.

(** [processImage] from the [await] on: the [try] block on a reply, the
    [catch] block on an error, and the [finally] block after either. *)
Definition processImage_settle (reply : Reply) : list Effect :=
  match reply with
  | Replied base64Image dimensions =>
      [LogDimensions dimensions;
       SetProcessingImage (Some ("data:image/jpeg;base64," ++ base64Image));
       SetImageDimensions (ReplyDimensions dimensions);
       SetShowProcessed true;
       SetError None]
  | Rejected e =>
      let detail := match response e with
                    | Some data => data
                    | None => message e
                    end in
      [LogRequestError "Error processing image:" detail;
       SetError (Some ("Error processing image: " ++ detail))]
  end ++ [SetLoading false].

(** One whole run of [processImage], nothing else happening meanwhile. *)
Definition processImage (st : State) (reply : Reply) : list Effect :=
  match processImage_request st with
  | [] => []
  | request => request ++ processImage_settle reply
  end.

(** [navigateToForm]. *)
Definition navigateToForm (st : State) : list Effect :=
  [Navigate "Form" (imageDimensions st)].

(** The [onPress] of the Re-take button beside Process. *)
Definition retakeCaptured : list Effect := [SetImage None].

(** The [onPress] of the Re-take button beside Calculate. *)
Definition retakeProcessed : list Effect :=
  [SetImage None; SetProcessingImage None; SetImageDimensions NoDimensions;
   SetShowProcessed false].

(** What the component returns. *)
Inductive MainView : Type :=
| CameraPreview
| CapturedImage (uri : option string)
| ProcessedImage (uri : option string).

Inductive ButtonRow : Type :=
| TakeAPicture
| RetakeAndProcess
| RetakeAndCalculate.

Inductive View : Type :=
| NoAccessToCamera
| Screen (spinner : bool) (main : MainView) (buttons : ButtonRow)
         (errorText : option string).

Definition render (st : State) : View :=
  match hasCameraPermission st with
  | Some false => NoAccessToCamera
  | _ =>
      Screen (loading st)
        (if negb (showProcessed st) then
           if negb (truthy (image st)) then CameraPreview
           else CapturedImage (image st)
         else ProcessedImage (processingImage st))
        (if negb (showProcessed st) then
           if truthy (image st) then RetakeAndProcess else TakeAPicture
         else RetakeAndCalculate)
        (if truthy (error st) then error st else None)
  end.

(** The buttons of the screen. *)
Inductive Button : Type :=
| PressTakeAPicture
| PressRetake
| PressProcess
| PressCalculate.

(** The state updates that pressing a button makes before it returns, when
    the button is on the screen.  Take a Picture only starts the camera:
    its updates come when the shot settles. *)
Definition press (st : State) (b : Button) : option (list Effect) :=
  match render st, b with
  | Screen _ _ TakeAPicture _, PressTakeAPicture => Some []
  | Screen _ _ RetakeAndProcess _, PressRetake => Some retakeCaptured
  | Screen _ _ RetakeAndProcess _, PressProcess => Some (processImage_request st)
  | Screen _ _ RetakeAndCalculate _, PressRetake => Some retakeProcessed
  | Screen _ _ RetakeAndCalculate _, PressCalculate => Some (navigateToForm st)
  | _, _ => None
  end.

(** The updates that arrive after an [await]: the answer to the permission
    request, a settled shot, a settled request. *)
Inductive settles : list Effect -> Prop :=
| settles_permission status : settles (permissionAnswered status)
| settles_shot cameraReady shot : settles (takePicture cameraReady shot)
| settles_request reply : settles (processImage_settle reply).

(** The states that the component can be in.  The updates of a press are
    applied together; the updates that follow an [await] may be applied one
    by one, so every state on the way counts.  A settlement is allowed at
    any time, which covers every order in which answers can arrive. *)
Inductive reachable : State -> Prop :=
| reachable_initial : reachable initialState
| reachable_press st b es :
    reachable st -> press st b = Some es -> reachable (run st es)
| reachable_settle st es k :
    reachable st -> settles es -> reachable (run st (firstn k es)).

(** The processed view has what it shows and what it hands on: a data URI
    built from a reply, and the dimensions of a reply. *)
Definition holdsReply (st : State) : Prop :=
  exists base64Image d,
    processingImage st = Some ("data:image/jpeg;base64," ++ base64Image)
    /\ imageDimensions st = ReplyDimensions d.

End Capture.

Arguments NoDimensions {D}.
Arguments initialState {D}.
Arguments SetHasCameraPermission {D} v.
Arguments SetImage {D} v.
Arguments SetProcessingImage {D} v.
Arguments SetError {D} v.
Arguments SetShowProcessed {D} v.
Arguments SetLoading {D} v.
Arguments Post {D} url fileUri fileType fileName.
Arguments LogShotError {D} e.
Arguments LogRequestError {D} label detail.
Arguments Rejected {D} e.
Arguments permissionAnswered {D} status.
Arguments takePicture {D} cameraReady shot.
Arguments retakeCaptured {D}.
Arguments retakeProcessed {D}.

End HomeScreen.

(** ** Facts that hold for every reading of the numbers *)

Section FormScreenFacts.

Context {num : Type} `{JSNumber num}.

(** More fuel never changes a result that was reached. *)
Lemma for_loop_fuel_mono (A : Type) (body1 body2 : num -> A -> option A) :
  (forall i acc r, body1 i acc = Some r -> body2 i acc = Some r) ->
  forall f1 f2 i bound acc r,
    (f1 <= f2)%nat ->
    for_loop f1 i bound body1 acc = Some r ->
    for_loop f2 i bound body2 acc = Some r.
Proof.
  intros Hbody. induction f1 as [|f1 IH]; intros f2 i bound acc r Hle Hrun.
  - discriminate.
  - destruct f2 as [|f2]; [lia|]. cbn in *.
    destruct (ltb i bound); [|exact Hrun].
    destruct (body1 i acc) as [acc'|] eqn:Hb; [|discriminate].
    rewrite (Hbody _ _ _ Hb). apply IH; [lia|exact Hrun].
Qed.

Lemma calculateDistances_fuel_mono (f1 f2 : nat) (dimensions : Dimensions num)
    (numFoci : num) (ds : list (Distance num)) :
  (f1 <= f2)%nat ->
  calculateDistances f1 dimensions numFoci = Some ds ->
  calculateDistances f2 dimensions numFoci = Some ds.
Proof.
  intros Hle. unfold calculateDistances.
  apply for_loop_fuel_mono; [|exact Hle].
  intros row acc r. apply for_loop_fuel_mono; [|exact Hle].
  intros col acc' r' Hr'. exact Hr'.
Qed.

(** A property of the accumulator that every iteration keeps holds of
    the result. *)
Lemma for_loop_invariant (A : Type) (P : A -> Prop) (body : num -> A -> option A) :
  (forall i acc r, P acc -> body i acc = Some r -> P r) ->
  forall fuel i bound acc r,
    P acc -> for_loop fuel i bound body acc = Some r -> P r.
Proof.
  intros Hbody. induction fuel as [|fuel IH]; intros i bound acc r Hacc Hrun.
  - discriminate.
  - cbn in Hrun. destruct (ltb i bound).
    + destruct (body i acc) as [acc'|] eqn:Hb; [|discriminate].
      eapply IH; [|exact Hrun]. eapply Hbody; eassumption.
    + injection Hrun as <-. exact Hacc.
Qed.

(** Whatever the numbers are, a stored position passed the test
    [x <= dimensions.width && y <= dimensions.height]. *)
Lemma calculateDistances_passed_test (fuel : nat) (dimensions : Dimensions num)
    (numFoci : num) (ds : list (Distance num)) :
  calculateDistances fuel dimensions numFoci = Some ds ->
  Forall (fun p => leb (x p) (width dimensions) = true
                   /\ leb (y p) (height dimensions) = true) ds.
Proof.
  unfold calculateDistances.
  apply for_loop_invariant; [|constructor].
  intros row acc r Hacc. apply for_loop_invariant; [|exact Hacc].
  intros col acc' r' Hacc' Hstep.
  destruct (leb _ (width dimensions) && leb _ (height dimensions)) eqn:Htest;
    injection Hstep as <-; [|exact Hacc'].
  apply andb_prop in Htest. apply Forall_app. split; [exact Hacc'|].
  constructor; [exact Htest|constructor].
Qed.

(** The handler either alerts or stores a count and a list, never both. *)
Lemma handleCalculate_cases (fuel : nat) (dimensions : Dimensions num)
    (lumensValue luxesValue : num) (es : list (Effect num)) :
  handleCalculate fuel dimensions lumensValue luxesValue = Some es ->
  (invalidValues lumensValue luxesValue = true
   /\ es = [Alert "Error" "Please enter valid values for lumens and luxes."])
  \/ (invalidValues lumensValue luxesValue = false
      /\ exists ds,
           calculateDistances fuel dimensions
             (calculateNumFoci dimensions lumensValue luxesValue) = Some ds
           /\ es = [SetFocusCount (calculateNumFoci dimensions lumensValue luxesValue);
                    SetDistances ds]).
Proof.
  unfold handleCalculate. destruct (invalidValues lumensValue luxesValue).
  - intro Hes. injection Hes as <-. left. split; reflexivity.
  - destruct (calculateDistances _ _ _) as [ds|]; [|discriminate].
    intro Hes. injection Hes as <-. right. split; [reflexivity|].
    exists ds. split; reflexivity.
Qed.

Lemma invalidValues_true (lumensValue luxesValue : num) :
  invalidValues lumensValue luxesValue = true
  <-> (isNaN lumensValue = true \/ isNaN luxesValue = true
       \/ leb lumensValue (lit 0) = true \/ leb luxesValue (lit 0) = true).
Proof.
  unfold invalidValues. rewrite !orb_true_iff. tauto.
Qed.

(** C2, as the code has it: the handler rejects its input exactly when
    the lumens or the luxes value is NaN, zero or negative.  It then
    raises the alert and nothing else, with no fuel at all, so the
    placement loops are never entered; the width and the height take no
    part in the decision, and neither does finiteness. *)
Theorem rejection_is_the_guard_on_lumens_and_luxes
    (fuel : nat) (dimensions : Dimensions num) (lumensValue luxesValue : num) :
  handleCalculate fuel dimensions lumensValue luxesValue
  = Some [Alert "Error" "Please enter valid values for lumens and luxes."]
  <-> (isNaN lumensValue = true \/ isNaN luxesValue = true
       \/ leb lumensValue (lit 0) = true \/ leb luxesValue (lit 0) = true).
Proof.
  rewrite <- invalidValues_true. split.
  - intro Hrun. apply handleCalculate_cases in Hrun.
    destruct Hrun as [[Hbad _]|[_ (ds & _ & Hes)]]; [exact Hbad|discriminate].
  - intro Hbad. unfold handleCalculate. now rewrite Hbad.
Qed.

(** C8, as the code has it: the results are kept exactly when the guard
    on the lumens and the luxes fires.  If one of the two values is NaN,
    zero or negative, the run is the alert alone, with any fuel, and the
    state, with any earlier result in it, is what it was.  If neither is,
    a run that returns holds no alert and replaces both results, whatever
    the width and the height are and whatever the state held. *)
Theorem results_are_kept_exactly_when_the_guard_fires
    (fuel : nat) (dimensions : Dimensions num) (lumensValue luxesValue : num)
    (st : FormState num) :
  ((isNaN lumensValue = true \/ isNaN luxesValue = true
    \/ leb lumensValue (lit 0) = true \/ leb luxesValue (lit 0) = true) ->
   handleCalculate fuel dimensions lumensValue luxesValue
   = Some [Alert "Error" "Please enter valid values for lumens and luxes."]
   /\ runEffects st [Alert "Error" "Please enter valid values for lumens and luxes."]
      = st)
  /\ (~ (isNaN lumensValue = true \/ isNaN luxesValue = true
         \/ leb lumensValue (lit 0) = true \/ leb luxesValue (lit 0) = true) ->
      forall es,
        handleCalculate fuel dimensions lumensValue luxesValue = Some es ->
        exists ds,
          es = [SetFocusCount (calculateNumFoci dimensions lumensValue luxesValue);
                SetDistances ds]
          /\ runEffects st es
             = {| focusCount := Some (calculateNumFoci dimensions lumensValue luxesValue);
                  distances := Some ds |}).
Proof.
  rewrite <- invalidValues_true. split.
  - intro Hbad. unfold handleCalculate. rewrite Hbad. split; reflexivity.
  - intros Hok es Hrun. apply handleCalculate_cases in Hrun.
    destruct Hrun as [[Hbad _]|[_ (ds & _ & ->)]]; [contradiction|].
    exists ds. split; reflexivity.
Qed.

End FormScreenFacts.

(** ** The layout over the real numbers *)

Module ExactLayout.

Import Exact.
Local Open Scope R_scope.

Lemma Rltb_true a b : Rltb a b = true <-> a < b.
Proof. unfold Rltb. destruct (Rlt_dec a b); split; intros; try easy. Qed.

Lemma Rltb_false a b : Rltb a b = false <-> b <= a.
Proof.
  unfold Rltb. destruct (Rlt_dec a b); split; intros; try easy; lra.
Qed.

Lemma Rleb_true a b : Rleb a b = true <-> a <= b.
Proof. unfold Rleb. destruct (Rle_dec a b); split; intros; try easy. Qed.

Lemma Rleb_false a b : Rleb a b = false <-> b < a.
Proof.
  unfold Rleb. destruct (Rle_dec a b); split; intros; try easy; lra.
Qed.

(** *** The ceiling *)

Lemma Rceil_bounds r : IZR (Rceil r) - 1 < r <= IZR (Rceil r).
Proof.
  unfold Rceil. destruct (archimed (- r)) as [Hgt Hle].
  rewrite minus_IZR. lra.
Qed.

Lemma Rceil_unique r z : IZR z - 1 < r <= IZR z -> Rceil r = z.
Proof.
  intros [Hlo Hhi]. destruct (Rceil_bounds r) as [Clo Chi].
  assert (H1 : (z - 1 < Rceil r)%Z) by (apply lt_IZR; rewrite minus_IZR; lra).
  assert (H2 : (Rceil r - 1 < z)%Z) by (apply lt_IZR; rewrite minus_IZR; lra).
  lia.
Qed.

Lemma Rceil_IZR z : Rceil (IZR z) = z.
Proof. apply Rceil_unique. lra. Qed.

(** [Rceil r] is the least integer at or above [r]. *)
Lemma Rceil_le_iff r z : (Rceil r <= z)%Z <-> r <= IZR z.
Proof.
  destruct (Rceil_bounds r) as [Clo Chi]. split; intro Hz.
  - apply IZR_le in Hz. lra.
  - assert (H1 : (Rceil r - 1 < z)%Z) by (apply lt_IZR; rewrite minus_IZR; lra).
    lia.
Qed.

Lemma Rceil_mono r s : r <= s -> (Rceil r <= Rceil s)%Z.
Proof.
  intro Hrs. apply Rceil_le_iff. destruct (Rceil_bounds s). lra.
Qed.

Lemma Rceil_pos r : 0 < r -> (1 <= Rceil r)%Z.
Proof.
  intro Hr. destruct (Rceil_bounds r) as [_ Chi].
  assert (H0 : (0 < Rceil r)%Z) by (apply lt_IZR; lra). lia.
Qed.

(** *** The loops *)

(** A loop whose bound is the natural number [n] and whose body succeeds
    runs its body at [k], [k + 1], ..., [n - 1], given fuel for it. *)
Lemma for_loop_INR (A : Type) (body : R -> A -> option A)
    (g : nat -> A -> A) (n : nat) :
  (forall j acc, (j < n)%nat -> body (INR j) acc = Some (g j acc)) ->
  forall d k fuel acc,
    (k + d = n)%nat -> (d < fuel)%nat ->
    for_loop fuel (INR k) (INR n) body acc
    = Some (fold_left (fun a j => g j a) (seq k d) acc).
Proof.
  intros Hbody. induction d as [|d IH]; intros k fuel acc Hk Hfuel.
  - destruct fuel as [|fuel]; [lia|]. cbn.
    replace k with n by lia.
    assert (Hf : Rltb (INR n) (INR n) = false) by (apply Rltb_false; lra).
    rewrite Hf. reflexivity.
  - destruct fuel as [|fuel]; [lia|]. cbn [for_loop ltb R_number].
    assert (Ht : Rltb (INR k) (INR n) = true).
    { apply Rltb_true. apply lt_INR. lia. }
    rewrite Ht, Hbody by lia.
    cbn [add lit R_number]. rewrite <- S_INR.
    rewrite (IH (S k) fuel (g k acc)) by lia. reflexivity.
Qed.

Lemma fold_left_push (A B : Type) (p : B -> bool) (f : B -> A) (l : list B) :
  forall acc,
    fold_left (fun a j => if p j then a ++ [f j] else a) l acc
    = acc ++ map f (filter p l).
Proof.
  induction l as [|b l IH]; intro acc; cbn.
  - now rewrite app_nil_r.
  - rewrite IH. destruct (p b); cbn; [now rewrite <- app_assoc|reflexivity].
Qed.

Lemma fold_left_append (A B : Type) (h : B -> list A) (l : list B) :
  forall acc, fold_left (fun a r => a ++ h r) l acc = acc ++ flat_map h l.
Proof.
  induction l as [|b l IH]; intro acc; cbn.
  - now rewrite app_nil_r.
  - rewrite IH. now rewrite <- app_assoc.
Qed.

Lemma filter_flat_map (A B : Type) (p : A -> bool) (h : B -> list A) (l : list B) :
  filter p (flat_map h l) = flat_map (fun b => filter p (h b)) l.
Proof.
  induction l as [|b l IH]; cbn; [reflexivity|].
  now rewrite filter_app, IH.
Qed.

Lemma filter_map_comm (A B : Type) (p : A -> bool) (f : B -> A) (l : list B) :
  filter p (map f l) = map f (filter (fun b => p (f b)) l).
Proof.
  induction l as [|b l IH]; cbn; [reflexivity|].
  destruct (p (f b)); cbn; now rewrite IH.
Qed.

(** The two nested loops of the component, over index-valued bounds:
    every cell is visited once, row by row, and the elements that pass
    the test are appended in that order. *)
Lemma nested_loops (A : Type) (p : nat -> nat -> bool) (f : nat -> nat -> A)
    (body : R -> R -> list A -> option (list A)) (nr nc : nat) :
  (forall row col acc,
      body (INR row) (INR col) acc
      = Some (if p row col then acc ++ [f row col] else acc)) ->
  forall fuel, (nr < fuel)%nat -> (nc < fuel)%nat ->
    for_loop fuel (INR 0) (INR nr)
      (fun row acc => for_loop fuel (INR 0) (INR nc) (body row) acc) []
    = Some (flat_map (fun row => map (f row) (filter (p row) (seq 0 nc)))
                     (seq 0 nr)).
Proof.
  intros Hbody fuel Hr Hc.
  rewrite (@for_loop_INR _ _
             (fun row acc => acc ++ map (f row) (filter (p row) (seq 0 nc))) nr)
    with (d := nr); try lia.
  - now rewrite fold_left_append.
  - intros row acc _.
    rewrite (@for_loop_INR _ _
               (fun col a => if p row col then a ++ [f row col] else a) nc)
      with (d := nc); try lia.
    + now rewrite fold_left_push.
    + intros col a _. apply Hbody.
Qed.

Lemma length_rows_of_cols (A : Type) (f : nat -> nat -> A) (nc : nat) (l : list nat) :
  List.length (flat_map (fun row => map (f row) (seq 0 nc)) l)
  = (List.length l * nc)%nat.
Proof.
  induction l as [|r l IH]; cbn; [reflexivity|].
  now rewrite length_app, length_map, length_seq, IH.
Qed.

Lemma filter_all (A : Type) (p : A -> bool) (l : list A) :
  (forall a, In a l -> p a = true) -> filter p l = l.
Proof.
  induction l as [|a l IH]; cbn; intro Hall; [reflexivity|].
  rewrite (Hall a) by now left. f_equal. apply IH. intros b Hb. apply Hall. now right.
Qed.

(** *** The shape of the grid *)

Lemma numCols_IZR n : numCols (IZR n) = IZR (gridCols n).
Proof. reflexivity. Qed.

Lemma numRows_IZR n : numRows (IZR n) = IZR (gridRows n).
Proof. reflexivity. Qed.

Lemma gridCols_spec n :
  (1 <= n)%Z ->
  (1 <= gridCols n /\ (gridCols n - 1) * (gridCols n - 1) < n <= gridCols n * gridCols n)%Z.
Proof.
  intro Hn. unfold gridCols.
  assert (Hn' : 1 <= IZR n) by now apply IZR_le.
  pose proof (sqrt_sqrt (IZR n) ltac:(lra)) as Hsq.
  assert (Hs1 : 1 <= R_sqrt.sqrt (IZR n)).
  { rewrite <- sqrt_1. apply sqrt_le_1_alt. exact Hn'. }
  set (s := R_sqrt.sqrt (IZR n)) in *.
  destruct (Rceil_bounds s) as [Clo Chi].
  set (c := Rceil s) in *.
  assert (Hc1 : (1 <= c)%Z) by (apply Rceil_pos; lra).
  assert (Hc1' : 1 <= IZR c) by now apply IZR_le.
  repeat split.
  - exact Hc1.
  - apply lt_IZR. rewrite mult_IZR, minus_IZR. nra.
  - apply le_IZR. rewrite mult_IZR. nra.
Qed.

Lemma gridRows_spec n :
  (1 <= n)%Z ->
  (1 <= gridRows n /\ (gridRows n - 1) * gridCols n < n <= gridRows n * gridCols n)%Z.
Proof.
  intro Hn. destruct (gridCols_spec Hn) as (Hc1 & _ & _).
  unfold gridRows. set (c := gridCols n) in *.
  assert (Hn' : 1 <= IZR n) by now apply IZR_le.
  assert (Hc' : 1 <= IZR c) by now apply IZR_le.
  assert (Hq : 0 < IZR n / IZR c) by (apply Rdiv_lt_0_compat; lra).
  assert (Hqc : IZR n / IZR c * IZR c = IZR n) by (field; lra).
  destruct (Rceil_bounds (IZR n / IZR c)) as [Rlo Rhi].
  set (r := Rceil (IZR n / IZR c)) in *.
  repeat split.
  - apply Rceil_pos. exact Hq.
  - apply lt_IZR. rewrite mult_IZR, minus_IZR. nra.
  - apply le_IZR. rewrite mult_IZR. nra.
Qed.

Lemma gridRows_le_gridCols n : (1 <= n)%Z -> (gridRows n <= gridCols n)%Z.
Proof.
  intro Hn. destruct (gridCols_spec Hn) as (Hc1 & _ & Hcc).
  destruct (gridRows_spec Hn) as (Hr1 & Hrc & _). nia.
Qed.

Lemma INR_to_nat z : (0 <= z)%Z -> INR (Z.to_nat z) = IZR z.
Proof. intro Hz. rewrite INR_IZR_INZ, Z2Nat.id by exact Hz. reflexivity. Qed.

(** *** The placement, in closed form *)

(** [calculateDistances] terminates on every integer count from one on,
    and returns the cells that pass the test, in grid order. *)
Lemma calculateDistances_exact (w h : R) (n : Z) (fuel : nat) :
  (1 <= n)%Z ->
  (Z.to_nat (gridRows n) < fuel)%nat -> (Z.to_nat (gridCols n) < fuel)%nat ->
  calculateDistances fuel {| width := w; height := h |} (IZR n)
  = Some (filter (within w h)
            (gridCells w h (Z.to_nat (gridRows n)) (Z.to_nat (gridCols n)))).
Proof.
  intros Hn Hr Hc.
  destruct (gridCols_spec Hn) as (Hc1 & _). destruct (gridRows_spec Hn) as (Hr1 & _).
  unfold calculateDistances. cbn [width height].
  rewrite numCols_IZR, numRows_IZR.
  rewrite <- (INR_to_nat (z := gridRows n)), <- (INR_to_nat (z := gridCols n)) by lia.
  set (nr := Z.to_nat (gridRows n)) in *. set (nc := Z.to_nat (gridCols n)) in *.
  change (lit 0) with (INR 0).
  rewrite (@nested_loops _
             (fun row col => within w h (cellCenter w h nr nc row col))
             (cellCenter w h nr nc)
             (fun row col acc =>
                if leb (add (div (div w (INR nc)) (lit 2)) (mul col (div w (INR nc)))) w
                   && leb (add (div (div h (INR nr)) (lit 2)) (mul row (div h (INR nr)))) h
                then Some (acc ++ [{| x := add (div (div w (INR nc)) (lit 2))
                                               (mul col (div w (INR nc)));
                                      y := add (div (div h (INR nr)) (lit 2))
                                               (mul row (div h (INR nr))) |}])
                else Some acc) nr nc); try assumption.
  - unfold gridCells. rewrite filter_flat_map. f_equal.
    apply flat_map_ext. intro row. now rewrite filter_map_comm.
  - intros row col acc. unfold within, cellCenter. cbn.
    destruct (Rleb _ w && Rleb _ h); reflexivity.
Qed.

(** Every cell centre lies strictly inside the rectangle. *)
Lemma cell_inside (w h : R) (nr nc row col : nat) :
  0 < w -> 0 < h -> (row < nr)%nat -> (col < nc)%nat ->
  0 < x (cellCenter w h nr nc row col) < w
  /\ 0 < y (cellCenter w h nr nc row col) < h.
Proof.
  intros Hw Hh Hrow Hcol. cbn.
  assert (Hc : INR col + 1 <= INR nc) by (rewrite <- S_INR; apply le_INR; lia).
  assert (Hr : INR row + 1 <= INR nr) by (rewrite <- S_INR; apply le_INR; lia).
  pose proof (pos_INR col) as Hc0. pose proof (pos_INR row) as Hr0.
  assert (Hsx : 0 < w / INR nc) by (apply Rdiv_lt_0_compat; lra).
  assert (Hsy : 0 < h / INR nr) by (apply Rdiv_lt_0_compat; lra).
  assert (Hwx : w / INR nc * INR nc = w) by (field; lra).
  assert (Hhy : h / INR nr * INR nr = h) by (field; lra).
  set (sx := w / INR nc) in *. set (sy := h / INR nr) in *.
  repeat split; nra.
Qed.

Lemma In_gridCells (w h : R) (nr nc : nat) (p : Distance R) :
  In p (gridCells w h nr nc) ->
  exists row col, (row < nr)%nat /\ (col < nc)%nat /\ p = cellCenter w h nr nc row col.
Proof.
  unfold gridCells. rewrite in_flat_map. intros (row & Hrow & Hp).
  apply in_map_iff in Hp. destruct Hp as (col & <- & Hcol).
  apply in_seq in Hrow. apply in_seq in Hcol.
  exists row, col. repeat split; lia.
Qed.

Lemma within_gridCells (w h : R) (nr nc : nat) :
  0 < w -> 0 < h ->
  filter (within w h) (gridCells w h nr nc) = gridCells w h nr nc.
Proof.
  intros Hw Hh. apply filter_all. intros p Hp.
  apply In_gridCells in Hp. destruct Hp as (row & col & Hrow & Hcol & ->).
  destruct (cell_inside (w := w) (h := h) Hw Hh Hrow Hcol) as [[_ Hx] [_ Hy]].
  unfold within. apply andb_true_intro. split; apply Rleb_true; lra.
Qed.

Lemma length_gridCells (w h : R) (nr nc : nat) :
  List.length (gridCells w h nr nc) = (nr * nc)%nat.
Proof.
  unfold gridCells. now rewrite length_rows_of_cols, length_seq.
Qed.

(** On a rectangle with positive sides the placement stores every cell. *)
Lemma calculateDistances_all_cells (w h : R) (n : Z) (fuel : nat) :
  0 < w -> 0 < h -> (1 <= n)%Z ->
  (Z.to_nat (gridRows n) < fuel)%nat -> (Z.to_nat (gridCols n) < fuel)%nat ->
  calculateDistances fuel {| width := w; height := h |} (IZR n)
  = Some (gridCells w h (Z.to_nat (gridRows n)) (Z.to_nat (gridCols n))).
Proof.
  intros Hw Hh Hn Hr Hc.
  rewrite calculateDistances_exact by assumption.
  now rewrite within_gridCells.
Qed.

(** Whatever fuel a run of the placement returned with, it returned the
    cells. *)
Lemma calculateDistances_returns_cells (w h : R) (n : Z) (fuel : nat)
    (ds : list (Distance R)) :
  0 < w -> 0 < h -> (1 <= n)%Z ->
  calculateDistances fuel {| width := w; height := h |} (IZR n) = Some ds ->
  ds = gridCells w h (Z.to_nat (gridRows n)) (Z.to_nat (gridCols n)).
Proof.
  intros Hw Hh Hn Hrun.
  set (big := (fuel + S (Z.to_nat (gridRows n) + Z.to_nat (gridCols n)))%nat).
  apply (@calculateDistances_fuel_mono _ _ fuel big) in Hrun; [|unfold big; lia].
  rewrite calculateDistances_all_cells in Hrun; try assumption; try (unfold big; lia).
  now injection Hrun.
Qed.

(** The grid holds the count, with less than one row to spare. *)
Lemma grid_holds_count (n : Z) :
  (1 <= n)%Z ->
  (n <= gridRows n * gridCols n < n + gridCols n)%Z.
Proof.
  intro Hn. destruct (gridRows_spec Hn) as (_ & Hlo & Hhi). lia.
Qed.

Lemma calculateNumFoci_exact (w h req out : R) :
  calculateNumFoci {| width := w; height := h |} out req
  = IZR (Rceil (req * w * h / out)).
Proof.
  unfold calculateNumFoci. cbn.
  replace (req * (w * h) / out) with (req * w * h / out) by (unfold Rdiv; ring).
  reflexivity.
Qed.

Lemma required_flux_ratio_pos (w h req out : R) :
  0 < w -> 0 < h -> 0 < req -> 0 < out -> 0 < req * w * h / out.
Proof.
  intros Hw Hh Hreq Hout. apply Rdiv_lt_0_compat; [|exact Hout].
  apply Rmult_lt_0_compat; [apply Rmult_lt_0_compat|]; assumption.
Qed.

(** On valid values the handler passes the guard and returns the count
    and the cells. *)
Lemma handleCalculate_exact (w h req out : R) (fuel : nat) :
  0 < w -> 0 < h -> 0 < req -> 0 < out ->
  let n := Rceil (req * w * h / out) in
  (Z.to_nat (gridRows n) < fuel)%nat -> (Z.to_nat (gridCols n) < fuel)%nat ->
  handleCalculate fuel {| width := w; height := h |} out req
  = Some [SetFocusCount (IZR n);
          SetDistances (gridCells w h (Z.to_nat (gridRows n)) (Z.to_nat (gridCols n)))].
Proof.
  intros Hw Hh Hreq Hout n Hr Hc.
  assert (Hn : (1 <= n)%Z) by (apply Rceil_pos; now apply required_flux_ratio_pos).
  unfold handleCalculate.
  assert (Hok : invalidValues out req = false).
  { unfold invalidValues. cbn.
    assert (H1 : Rleb out 0 = false) by (apply Rleb_false; lra).
    assert (H2 : Rleb req 0 = false) by (apply Rleb_false; lra).
    now rewrite H1, H2. }
  rewrite Hok, calculateNumFoci_exact. fold n.
  now rewrite calculateDistances_all_cells.
Qed.

(** *** The claims on the real numbers *)

(** C1, in exact arithmetic: for positive width, height, illuminance
    [req] and output per fixture [out], the handler stores the count
    [ceil (req * width * height / out)]; the count is at least one, it
    delivers the required flux, and no smaller integer does. *)
Theorem fixture_count_is_least_sufficient (w h req out : R) :
  0 < w -> 0 < h -> 0 < req -> 0 < out ->
  exists n : Z,
    (exists fuel ds,
        handleCalculate fuel {| width := w; height := h |} out req
        = Some [SetFocusCount (IZR n); SetDistances ds])
    /\ n = Rceil (req * w * h / out)
    /\ (1 <= n)%Z
    /\ req * w * h <= IZR n * out
    /\ (forall m : Z, req * w * h <= IZR m * out -> (n <= m)%Z).
Proof.
  intros Hw Hh Hreq Hout.
  pose proof (required_flux_ratio_pos Hw Hh Hreq Hout) as Hq.
  assert (Hqo : req * w * h / out * out = req * w * h) by (field; lra).
  set (q := req * w * h / out) in *.
  exists (Rceil q). repeat split.
  - subst q.
    exists (S (Z.to_nat (gridRows (Rceil (req * w * h / out)))
               + Z.to_nat (gridCols (Rceil (req * w * h / out))))).
    eexists. apply handleCalculate_exact; try assumption; cbv zeta; lia.
  - apply Rceil_pos. exact Hq.
  - destruct (Rceil_bounds q) as [_ Hhi]. nra.
  - intros m Hm. apply Rceil_le_iff.
    apply Rmult_le_reg_r with (r := out); [exact Hout|]. lra.
Qed.

Lemma fixture_count_is_least_sufficient_witness :
  exists n : Z,
    (exists fuel ds,
        handleCalculate fuel {| width := 4; height := 3 |} 900 300
        = Some [SetFocusCount (IZR n); SetDistances ds])
    /\ n = Rceil (300 * 4 * 3 / 900)
    /\ (1 <= n)%Z
    /\ 300 * 4 * 3 <= IZR n * 900
    /\ (forall m : Z, 300 * 4 * 3 <= IZR m * 900 -> (n <= m)%Z).
Proof.
  apply (@fixture_count_is_least_sufficient 4 3 300 900); lra.
Defined.

(** C3, as the code has it: on valid values the handler stores a count
    [n] and a list of positions that is never shorter than [n]: it has
    one position per cell of the grid, [numRows * numCols] of them, which
    is at least [n] and less than [n + numCols]. *)
Theorem positions_are_at_least_the_count (w h req out : R) :
  0 < w -> 0 < h -> 0 < req -> 0 < out ->
  exists (n : Z) (fuel : nat) (ds : list (Distance R)),
    handleCalculate fuel {| width := w; height := h |} out req
    = Some [SetFocusCount (IZR n); SetDistances ds]
    /\ Z.of_nat (List.length ds) = (gridRows n * gridCols n)%Z
    /\ (n <= Z.of_nat (List.length ds) < n + gridCols n)%Z.
Proof.
  intros Hw Hh Hreq Hout.
  set (n := Rceil (req * w * h / out)).
  assert (Hn : (1 <= n)%Z) by (apply Rceil_pos; now apply required_flux_ratio_pos).
  destruct (gridCols_spec Hn) as (Hc1 & _). destruct (gridRows_spec Hn) as (Hr1 & _).
  exists n, (S (Z.to_nat (gridRows n) + Z.to_nat (gridCols n))).
  eexists. split; [apply handleCalculate_exact; try assumption; cbv zeta; fold n; lia|].
  fold n. rewrite length_gridCells, Nat2Z.inj_mul, !Z2Nat.id by lia.
  split; [reflexivity|]. apply grid_holds_count. exact Hn.
Qed.

Lemma positions_are_at_least_the_count_witness :
  exists (n : Z) (fuel : nat) (ds : list (Distance R)),
    handleCalculate fuel {| width := 5; height := 5 |} 1000 200
    = Some [SetFocusCount (IZR n); SetDistances ds]
    /\ Z.of_nat (List.length ds) = (gridRows n * gridCols n)%Z
    /\ (n <= Z.of_nat (List.length ds) < n + gridCols n)%Z.
Proof.
  apply (@positions_are_at_least_the_count 5 5 200 1000); lra.
Defined.

(** In exact arithmetic, for positive width and height and an integer
    count from one on, both loops make as many rounds as their bound says,
    and the placement returns, given fuel for its loops, the cells of the
    [numRows] by [numCols] grid that pass [x <= width && y <= height],
    rows outermost and in increasing order, columns in increasing order
    within a row, each cell [(row, col)] at
    [x = spacingX / 2 + col * spacingX], [y = spacingY / 2 + row * spacingY]
    with [spacingX = width / numCols] and [spacingY = height / numRows]. *)
Theorem positions_enumerate_the_grid (w h : R) (n : Z) :
  0 < w -> 0 < h -> (1 <= n)%Z ->
  exists nr nc : nat,
    numRows (IZR n) = INR nr
    /\ numCols (IZR n) = INR nc
    /\ (forall fuel, (Nat.max nr nc < fuel)%nat ->
          calculateDistances fuel {| width := w; height := h |} (IZR n)
          = Some (filter
                    (fun p => leb (x p) w && leb (y p) h)
                    (flat_map
                       (fun row =>
                          map (fun col =>
                                 {| x := w / INR nc / 2 + INR col * (w / INR nc);
                                    y := h / INR nr / 2 + INR row * (h / INR nr) |})
                              (seq 0 nc))
                       (seq 0 nr)))).
Proof.
  intros Hw Hh Hn.
  destruct (gridCols_spec Hn) as (Hc1 & _). destruct (gridRows_spec Hn) as (Hr1 & _).
  exists (Z.to_nat (gridRows n)), (Z.to_nat (gridCols n)).
  split; [rewrite numRows_IZR, INR_to_nat by lia; reflexivity|].
  split; [rewrite numCols_IZR, INR_to_nat by lia; reflexivity|].
  intros fuel Hfuel. apply calculateDistances_exact; [exact Hn|lia|lia].
Qed.

Lemma positions_enumerate_the_grid_witness :
  exists nr nc : nat,
    numRows (IZR 4) = INR nr
    /\ numCols (IZR 4) = INR nc
    /\ (forall fuel, (Nat.max nr nc < fuel)%nat ->
          calculateDistances fuel {| width := 4; height := 3 |} (IZR 4)
          = Some (filter
                    (fun p => leb (x p) 4 && leb (y p) 3)
                    (flat_map
                       (fun row =>
                          map (fun col =>
                                 {| x := 4 / INR nc / 2 + INR col * (4 / INR nc);
                                    y := 3 / INR nr / 2 + INR row * (3 / INR nr) |})
                              (seq 0 nc))
                       (seq 0 nr)))).
Proof.
  apply (@positions_enumerate_the_grid 4 3 4); [lra|lra|lia].
Defined.

(** C5, in exact arithmetic: for an integer count [n] from one on, the
    grid of [numCols = ceil (sqrt n)] columns and
    [numRows = ceil (n / numCols)] rows has room for the count, and would not with one column less. *)
Theorem grid_shape_is_tight (n : Z) :
  (1 <= n)%Z ->
  IZR n <= numCols (IZR n) * numRows (IZR n)
  /\ (numCols (IZR n) - 1) * numRows (IZR n) < IZR n.
Proof.
  intro Hn. rewrite numCols_IZR, numRows_IZR.
  destruct (gridCols_spec Hn) as (Hc1 & Hclo & Hchi).
  destruct (gridRows_spec Hn) as (Hr1 & Hrlo & Hrhi).
  pose proof (gridRows_le_gridCols Hn) as Hrc.
  split.
  - rewrite <- mult_IZR. apply IZR_le. lia.
  - rewrite <- minus_IZR, <- mult_IZR. apply IZR_lt.
    destruct (Z.eq_dec (gridRows n) (gridCols n)) as [Heq|Hne]; [rewrite Heq in *; lia|].
    nia.
Qed.

Lemma grid_shape_is_tight_witness :
  IZR 5 <= numCols (IZR 5) * numRows (IZR 5)
  /\ (numCols (IZR 5) - 1) * numRows (IZR 5) < IZR 5.
Proof.
  apply (@grid_shape_is_tight 5). lia.
Defined.

(** In exact arithmetic, for positive width and height and an integer
    count from one on, the placement returns, and every position of a list
    it returns has [0 <= x <= width] and [0 <= y <= height]. *)
Theorem positions_within_the_area (w h : R) (n : Z) :
  0 < w -> 0 < h -> (1 <= n)%Z ->
  (exists fuel ds,
      calculateDistances fuel {| width := w; height := h |} (IZR n) = Some ds)
  /\ (forall fuel ds,
        calculateDistances fuel {| width := w; height := h |} (IZR n) = Some ds ->
        forall p, In p ds -> 0 <= x p <= w /\ 0 <= y p <= h).
Proof.
  intros Hw Hh Hn. split.
  - exists (S (Z.to_nat (gridRows n) + Z.to_nat (gridCols n))). eexists.
    apply calculateDistances_all_cells; try assumption; lia.
  - intros fuel ds Hrun p Hp.
    apply calculateDistances_returns_cells in Hrun; try assumption. subst ds.
    apply In_gridCells in Hp. destruct Hp as (row & col & Hrow & Hcol & ->).
    destruct (cell_inside (w := w) (h := h) Hw Hh Hrow Hcol) as [Hx Hy]. lra.
Qed.

Lemma positions_within_the_area_witness :
  (exists fuel ds,
      calculateDistances fuel {| width := 4; height := 3 |} (IZR 4) = Some ds)
  /\ (forall fuel ds,
        calculateDistances fuel {| width := 4; height := 3 |} (IZR 4) = Some ds ->
        forall p, In p ds -> 0 <= x p <= 4 /\ 0 <= y p <= 3).
Proof.
  apply (@positions_within_the_area 4 3 4); [lra|lra|lia].
Defined.



(** C9: in exact arithmetic, for positive width and height and an integer
    count [n] from one on, the centre of every cell [(row, col)] is
    [x = (col + 1/2) * width / numCols < width] and
    [y = (row + 1/2) * height / numRows < height]; so the test accepts
    every cell, and the placement returns exactly [numRows * numCols]
    positions, which is at least [n]. *)
Theorem every_cell_is_accepted (w h : R) (n : Z) :
  0 < w -> 0 < h -> (1 <= n)%Z ->
  exists nr nc : nat,
    numRows (IZR n) = INR nr
    /\ numCols (IZR n) = INR nc
    /\ (forall row col, (row < nr)%nat -> (col < nc)%nat ->
          x (cellCenter w h nr nc row col) = (INR col + 1 / 2) * w / INR nc
          /\ x (cellCenter w h nr nc row col) < w
          /\ y (cellCenter w h nr nc row col) = (INR row + 1 / 2) * h / INR nr
          /\ y (cellCenter w h nr nc row col) < h)
    /\ (forall fuel, (Nat.max nr nc < fuel)%nat ->
          calculateDistances fuel {| width := w; height := h |} (IZR n)
          = Some (gridCells w h nr nc))
    /\ List.length (gridCells w h nr nc) = (nr * nc)%nat
    /\ (n <= Z.of_nat (nr * nc))%Z.
Proof.
  intros Hw Hh Hn.
  destruct (gridCols_spec Hn) as (Hc1 & _). destruct (gridRows_spec Hn) as (Hr1 & _).
  exists (Z.to_nat (gridRows n)), (Z.to_nat (gridCols n)).
  split; [rewrite numRows_IZR, INR_to_nat by lia; reflexivity|].
  split; [rewrite numCols_IZR, INR_to_nat by lia; reflexivity|].
  split; [|split; [|split]].
  - intros row col Hrow Hcol.
    destruct (cell_inside (w := w) (h := h) Hw Hh Hrow Hcol) as [[_ Hx] [_ Hy]].
    assert (Hnc : 0 < INR (Z.to_nat (gridCols n))) by (apply lt_0_INR; lia).
    assert (Hnr : 0 < INR (Z.to_nat (gridRows n))) by (apply lt_0_INR; lia).
    set (nr := Z.to_nat (gridRows n)) in *. set (nc := Z.to_nat (gridCols n)) in *.
    repeat split; try assumption; unfold cellCenter; cbn [x y]; field; lra.
  - intros fuel Hfuel. apply calculateDistances_all_cells; try assumption; lia.
  - apply length_gridCells.
  - rewrite Nat2Z.inj_mul, !Z2Nat.id by lia. apply grid_holds_count. exact Hn.
Qed.

Lemma every_cell_is_accepted_witness :
  exists nr nc : nat,
    numRows (IZR 5) = INR nr
    /\ numCols (IZR 5) = INR nc
    /\ (forall row col, (row < nr)%nat -> (col < nc)%nat ->
          x (cellCenter 5 5 nr nc row col) = (INR col + 1 / 2) * 5 / INR nc
          /\ x (cellCenter 5 5 nr nc row col) < 5
          /\ y (cellCenter 5 5 nr nc row col) = (INR row + 1 / 2) * 5 / INR nr
          /\ y (cellCenter 5 5 nr nc row col) < 5)
    /\ (forall fuel, (Nat.max nr nc < fuel)%nat ->
          calculateDistances fuel {| width := 5; height := 5 |} (IZR 5)
          = Some (gridCells 5 5 nr nc))
    /\ List.length (gridCells 5 5 nr nc) = (nr * nc)%nat
    /\ (5 <= Z.of_nat (nr * nc))%Z.
Proof.
  apply (@every_cell_is_accepted 5 5 5); [lra|lra|lia].
Defined.

(** *** The rendered grid *)

Lemma map_flat_map (A B C : Type) (g : B -> C) (f : A -> list B) (l : list A) :
  map g (flat_map f l) = flat_map (fun a => map g (f a)) l.
Proof.
  induction l as [|a l IH]; cbn; [reflexivity|].
  now rewrite map_app, IH.
Qed.

Lemma flat_map_ext_on (A B : Type) (f g : A -> list B) (l : list A) :
  (forall a, In a l -> f a = g a) -> flat_map f l = flat_map g l.
Proof.
  induction l as [|a l IH]; cbn; intro Hfg; [reflexivity|].
  rewrite (Hfg a) by now left. f_equal. apply IH. intros b Hb. apply Hfg. now right.
Qed.

(** [renderFocusGrid] on an integer count from one on: the container and
    the dots of the cells that pass the test. *)
Lemma renderFocusGrid_exact (sw w h : R) (n : Z) (fuel : nat) :
  (1 <= n)%Z ->
  (Z.to_nat (gridRows n) < fuel)%nat -> (Z.to_nat (gridCols n) < fuel)%nat ->
  let cw := sw - 40 in
  let ch := (sw - 40) / (w / h) in
  let nr := Z.to_nat (gridRows n) in
  let nc := Z.to_nat (gridCols n) in
  renderFocusGrid fuel sw {| width := w; height := h |} (IZR n)
  = Some (RenderedGrid cw ch
            (flat_map
               (fun row =>
                  map (focusAt cw ch nr nc row)
                      (filter (fun col => within cw ch (cellCenter cw ch nr nc row col))
                              (seq 0 nc)))
               (seq 0 nr))).
Proof.
  intros Hn Hr Hc cw ch nr nc.
  destruct (gridCols_spec Hn) as (Hc1 & _). destruct (gridRows_spec Hn) as (Hr1 & _).
  unfold renderFocusGrid. cbn [width height].
  assert (Hpos : leb (IZR n) (lit 0) = false).
  { apply Rleb_false. apply IZR_lt. lia. }
  rewrite Hpos, numCols_IZR, numRows_IZR.
  rewrite <- (INR_to_nat (z := gridRows n)), <- (INR_to_nat (z := gridCols n)) by lia.
  fold nr nc. change (lit 0) with (INR 0).
  change (sub sw (lit 40)) with cw. change (div cw (div w h)) with ch.
  rewrite (@nested_loops _
             (fun row col => within cw ch (cellCenter cw ch nr nc row col))
             (focusAt cw ch nr nc)
             (fun row col acc =>
                if leb (add (div (div cw (INR nc)) (lit 2)) (mul col (div cw (INR nc)))) cw
                   && leb (add (div (div ch (INR nr)) (lit 2)) (mul row (div ch (INR nr)))) ch
                then Some (acc ++ [{| key := (row, col);
                                      focusSize := lit 20;
                                      left := add (div (div cw (INR nc)) (lit 2))
                                                  (mul col (div cw (INR nc)));
                                      top := add (div (div ch (INR nr)) (lit 2))
                                                 (mul row (div ch (INR nr))) |}])
                else Some acc) nr nc); try assumption.
  - reflexivity.
  - intros row col acc. unfold within, focusAt, cellCenter. cbn.
    destruct (Rleb _ cw && Rleb _ ch); reflexivity.
Qed.

(** C10: for positive area dimensions, an integer count from one on and a
    window wider than the 40 units of margin that the container leaves
    out, [renderFocusGrid] lays the same grid of [numRows] by [numCols]
    cells over a container that is the area scaled by the positive factor
    [containerWidth / width], and draws one dot per position that the
    handler stores, each at the scaled position. *)
Theorem rendered_dots_match_positions (sw w h : R) (n : Z) :
  0 < w -> 0 < h -> (1 <= n)%Z -> 40 < sw ->
  exists (fuel : nat) (cw ch : R) (dots : list (FocusView R))
         (ds : list (Distance R)),
    renderFocusGrid fuel sw {| width := w; height := h |} (IZR n)
    = Some (RenderedGrid cw ch dots)
    /\ calculateDistances fuel {| width := w; height := h |} (IZR n) = Some ds
    /\ cw = sw - 40
    /\ 0 < cw / w
    /\ cw = cw / w * w
    /\ ch = cw / w * h
    /\ List.length dots = List.length ds
    /\ map (fun v => (left v, top v)) dots
       = map (fun p => (cw / w * x p, cw / w * y p)) ds.
Proof.
  intros Hw Hh Hn Hsw.
  destruct (gridCols_spec Hn) as (Hc1 & _). destruct (gridRows_spec Hn) as (Hr1 & _).
  set (nr := Z.to_nat (gridRows n)). set (nc := Z.to_nat (gridCols n)).
  assert (Hnr : 0 < INR nr) by (apply lt_0_INR; unfold nr; lia).
  assert (Hnc : 0 < INR nc) by (apply lt_0_INR; unfold nc; lia).
  set (cw := sw - 40). set (ch := (sw - 40) / (w / h)).
  assert (Hcw : 0 < cw) by (unfold cw; lra).
  assert (Hch : 0 < ch).
  { unfold ch. apply Rdiv_lt_0_compat; [lra|]. now apply Rdiv_lt_0_compat. }
  exists (S (nr + nc)), cw, ch.
  exists (flat_map (fun row => map (focusAt cw ch nr nc row) (seq 0 nc)) (seq 0 nr)).
  exists (gridCells w h nr nc).
  split; [|split; [|split; [|split; [|split; [|split; [|split]]]]]].
  - rewrite renderFocusGrid_exact; [|exact Hn|fold nr; lia|fold nc; lia].
    cbv zeta. fold nr nc ch. fold cw. do 2 f_equal.
    apply flat_map_ext_on. intros row Hrow. apply in_seq in Hrow. f_equal.
    apply filter_all. intros col Hcol. apply in_seq in Hcol.
    destruct (cell_inside (w := cw) (h := ch) (nr := nr) (nc := nc)
                (row := row) (col := col) Hcw Hch) as [[_ Hx] [_ Hy]]; [lia|lia|].
    unfold within. apply andb_true_intro. split; apply Rleb_true; lra.
  - apply calculateDistances_all_cells; try assumption; fold nr nc; lia.
  - reflexivity.
  - now apply Rdiv_lt_0_compat.
  - unfold cw. field. lra.
  - unfold ch, cw. field. lra.
  - unfold gridCells. now rewrite !length_rows_of_cols.
  - unfold gridCells. rewrite !map_flat_map. apply flat_map_ext. intro row.
    rewrite !map_map. apply map_ext. intro col.
    unfold focusAt, cellCenter, ch, cw. cbn [left top x y]. f_equal; field; lra.
Qed.

Lemma rendered_dots_match_positions_witness :
  exists (fuel : nat) (cw ch : R) (dots : list (FocusView R))
         (ds : list (Distance R)),
    renderFocusGrid fuel 360 {| width := 5; height := 5 |} (IZR 5)
    = Some (RenderedGrid cw ch dots)
    /\ calculateDistances fuel {| width := 5; height := 5 |} (IZR 5) = Some ds
    /\ cw = 360 - 40
    /\ 0 < cw / 5
    /\ cw = cw / 5 * 5
    /\ ch = cw / 5 * 5
    /\ List.length dots = List.length ds
    /\ map (fun v => (left v, top v)) dots
       = map (fun p => (cw / 5 * x p, cw / 5 * y p)) ds.
Proof.
  apply (@rendered_dots_match_positions 360 5 5 5); [lra|lra|lia|lra].
Defined.

End ExactLayout.

(** ** Runs of the handler in binary64 *)

Module DoubleRuns.

Import Double.
Local Open Scope float_scope.
#[local] Set Warnings "-inexact-float".

(** [Math.ceil] on the values that matter here. *)
Example ceil_samples :
  map ceil [1.2; 4; 0.5; 0; 3.0000000000000004; infinity]
  = [2; 4; 1; 0; 4; infinity].
Proof. vm_compute. reflexivity. Qed.

Example ceil_nan : PrimFloat.is_nan (ceil nan) = true.
Proof. vm_compute. reflexivity. Qed.

(** A 4 m by 3 m area at 300 lux with fixtures of 900 lm: four fixtures,
    on a 2 by 2 grid. *)
Example run_4_3_300_900 :
  handleCalculate 10 {| width := 4; height := 3 |} 900 300
  = Some [SetFocusCount 4;
          SetDistances [{| x := 1; y := 0.75 |}; {| x := 3; y := 0.75 |};
                        {| x := 1; y := 2.25 |}; {| x := 3; y := 2.25 |}]].
Proof. vm_compute. reflexivity. Qed.

(** A single fixture sits in the middle of the area. *)
Example run_single_fixture :
  handleCalculate 10 {| width := 4; height := 3 |} 3600 300
  = Some [SetFocusCount 1; SetDistances [{| x := 2; y := 1.5 |}]].
Proof. vm_compute. reflexivity. Qed.

(** A negative illuminance and a field that did not parse are rejected. *)
Example run_negative_luxes :
  handleCalculate 10 {| width := 5; height := 5 |} 50 (-1)
  = Some [Alert "Error" "Please enter valid values for lumens and luxes."].
Proof. vm_compute. reflexivity. Qed.

Example run_nan_lumens :
  handleCalculate 10 {| width := 5; height := 5 |} nan 100
  = Some [Alert "Error" "Please enter valid values for lumens and luxes."].
Proof. vm_compute. reflexivity. Qed.

(** An infinite illuminance passes the guard. *)
Example run_infinite_luxes :
  handleCalculate 10 {| width := 5; height := 5 |} 50 infinity
  = Some [SetFocusCount infinity; SetDistances []].
Proof. vm_compute. reflexivity. Qed.

(** The grid is tight in binary64 for every count up to four thousand. *)
Example binary64_grid_shape_is_tight :
  forallb gridShapeHolds (map Z.of_nat (seq 1 4000)) = true.
Proof. vm_compute. reflexivity. Qed.

(** Rounding at the edge of the format.  The product of two tiny sides
    underflows to zero and the count with it; on a width of 13 units in
    the last place the spacing of five columns rounds from 2.6 to 3 units,
    the last column lands on 14 and is left out, and 20 positions are
    stored for 25 fixtures. *)
Example run_underflow :
  handleCalculate 10 {| width := 1e-200; height := 1e-200 |} 1 1
  = Some [SetFocusCount 0; SetDistances []].
Proof. vm_compute. reflexivity. Qed.

Example run_subnormal_width :
  option_map (@List.length _)
    (calculateDistances 10 {| width := 13 * 0x1p-1074; height := 1 |} 25)
  = Some 20%nat.
Proof. vm_compute. reflexivity. Qed.

(** C1 fails in binary64: on a 3 m by 1 m area at 102.4 lux with fixtures
    of 102.4 lm the handler stores a count of four, although three
    fixtures deliver the required flux.  The product [102.4 * 3] is
    rounded up to 307.20000000000005, the quotient by 102.4 is
    3.0000000000000004, and the ceiling of that is 4. *)
Lemma binary64_count_is_not_least :
  handleCalculate 10 {| width := 3; height := 1 |} 102.4 102.4
  = Some [SetFocusCount 4;
          SetDistances [{| x := 0.75; y := 0.25 |}; {| x := 2.25; y := 0.25 |};
                        {| x := 0.75; y := 0.75 |}; {| x := 2.25; y := 0.75 |}]]
  /\ (102.4 * (3 * 1) / 102.4 = 3.0000000000000004)
  /\ (102.4 * 3 * 1 <=? 3 * 102.4) = true
  /\ (3 <? 4) = true.
Proof. repeat split; vm_compute; reflexivity. Qed.

(** C2 fails on the width: a width of zero is not rejected.  The handler
    stores a count of zero and an empty list of positions. *)
Lemma zero_width_is_not_rejected :
  handleCalculate 10 {| width := 0; height := 5 |} 50 100
  = Some [SetFocusCount 0; SetDistances []].
Proof. vm_compute. reflexivity. Qed.

(** C3 fails: a 5 m by 5 m area at 200 lux with fixtures of 1000 lm needs
    five fixtures, and the handler stores six positions, one per cell of
    the 2 by 3 grid. *)
Lemma six_positions_for_five_fixtures :
  exists ds,
    handleCalculate 10 {| width := 5; height := 5 |} 1000 200
    = Some [SetFocusCount 5; SetDistances ds]
    /\ List.length ds = 6%nat
    /\ (5 <? 6) = true.
Proof.
  exists [{| x := 0.83333333333333337; y := 1.25 |}; {| x := 2.5; y := 1.25 |};
          {| x := 4.166666666666667; y := 1.25 |};
          {| x := 0.83333333333333337; y := 3.75 |}; {| x := 2.5; y := 3.75 |};
          {| x := 4.166666666666667; y := 3.75 |}].
  repeat split; vm_compute; reflexivity.
Qed.

(** C8 fails on the width: after a calculation that stored four fixtures,
    a run on a width of zero raises no alert and puts a count of zero and
    an empty list in their place. *)
Lemma zero_width_replaces_the_results :
  handleCalculate 10 {| width := 0; height := 5 |} 50 100
  = Some [SetFocusCount 0; SetDistances []]
  /\ runEffects
       {| focusCount := Some 4;
          distances := Some [{| x := 1; y := 0.75 |}; {| x := 3; y := 0.75 |};
                             {| x := 1; y := 2.25 |}; {| x := 3; y := 2.25 |}] |}
       [SetFocusCount 0; SetDistances []]
     = {| focusCount := Some 0; distances := Some [] |}.
Proof. split; vm_compute; reflexivity. Qed.

(** C5 fails in binary64 on a large count: for 18014398912135172 fixtures
    the square root rounds to 134217729.5, so there are 134217730 columns,
    the quotient rounds down to 134217729 rows, and the grid has two cells
    less than the count. *)
Lemma binary64_grid_misses_a_large_count :
  calculateNumFoci {| width := 1; height := 1 |} 1 18014398912135172
  = 18014398912135172
  /\ numCols 18014398912135172 = 134217730
  /\ numRows 18014398912135172 = 134217729
  /\ (134217730 * 134217729 = 18014398912135170)%Z
  /\ (18014398912135172 <=? numCols 18014398912135172 * numRows 18014398912135172)
     = false.
Proof. repeat split; vm_compute; reflexivity. Qed.


(** C10 fails in a window narrower than the margin: the container gets a
    negative size, no dot passes the test, and nothing is drawn for the
    six positions that the handler stores for five fixtures. *)
Lemma narrow_window_draws_no_dot :
  renderFocusGrid 10 30 {| width := 5; height := 5 |} 5
  = Some (RenderedGrid (-10) (-10) [])
  /\ exists ds,
       calculateDistances 10 {| width := 5; height := 5 |} 5 = Some ds
       /\ List.length ds = 6%nat.
Proof.
  split; [vm_compute; reflexivity|].
  exists [{| x := 0.83333333333333337; y := 1.25 |}; {| x := 2.5; y := 1.25 |};
          {| x := 4.166666666666667; y := 1.25 |};
          {| x := 0.83333333333333337; y := 3.75 |}; {| x := 2.5; y := 3.75 |};
          {| x := 4.166666666666667; y := 3.75 |}].
  split; vm_compute; reflexivity.
Qed.

(** In binary64 as well, the positions stored for the 5 m by 5 m area
    passed the test of the loop. *)
Lemma calculateDistances_passed_test_witness :
  Forall (fun p => PrimFloat.leb (x p) 5 = true /\ PrimFloat.leb (y p) 5 = true)
    [{| x := 0.83333333333333337; y := 1.25 |}; {| x := 2.5; y := 1.25 |};
     {| x := 4.166666666666667; y := 1.25 |};
     {| x := 0.83333333333333337; y := 3.75 |}; {| x := 2.5; y := 3.75 |};
     {| x := 4.166666666666667; y := 3.75 |}].
Proof.
  apply (@calculateDistances_passed_test float float_number 10
           {| width := 5; height := 5 |} 5).
  vm_compute. reflexivity.
Defined.

End DoubleRuns.

(** ** The capture screen: what its handlers keep *)

Module HomeScreenFacts.

Import HomeScreen.
Local Open Scope string_scope.

Section Capture.

Variable D : Type.

Lemma run_app (st : State D) (es1 es2 : list (Effect D)) :
  run st (es1 ++ es2) = run (run st es1) es2.
Proof. unfold run. apply fold_left_app. Qed.

(** Unrolls a run over the first [k] updates of an explicit list. *)
Ltac prefixes k :=
  first [ rewrite firstn_nil
        | let k' := fresh "k" in
          destruct k as [|k']; [|cbn [firstn]; prefixes k'] ].

(** Applies the updates of an explicit list, leaving strings as they are. *)
Ltac updates :=
  cbn [run fold_left applyEffect firstn app hasCameraPermission image
       processingImage imageDimensions error showProcessed loading].

Lemma holdsReply_settle (st : State D) (es : list (Effect D)) (k : nat) :
  (showProcessed st = true -> holdsReply st) ->
  settles es ->
  showProcessed (run st (firstn k es)) = true -> holdsReply (run st (firstn k es)).
Proof.
  intros Hst Hes. destruct Hes as [status|cameraReady shot|reply].
  - unfold permissionAnswered. prefixes k; updates; exact Hst.
  - unfold takePicture. destruct cameraReady; [destruct shot|]; prefixes k; updates;
      try exact Hst; intros; discriminate.
  - unfold processImage_settle, holdsReply. destruct reply as [b64 d|e]; updates.
    + prefixes k; updates; try exact Hst;
        try (intros _; exists b64, d; split; reflexivity).
      intro Hshow. destruct (Hst Hshow) as (b & d' & _ & Hd).
      exists b64, d'. split; [reflexivity|exact Hd].
    + prefixes k; updates; exact Hst.
Qed.

(** Posting the captured file touches the spinner and nothing else. *)
Lemma request_keeps (st : State D) :
  run st (processImage_request st)
  = run st (if truthy (image st) then [SetLoading true] else []).
Proof.
  unfold processImage_request. destruct (image st) as [uri|]; [|reflexivity].
  destruct (truthy (Some uri)); reflexivity.
Qed.

Lemma holdsReply_press (st : State D) (b : Button) (es : list (Effect D)) :
  (showProcessed st = true -> holdsReply st) ->
  press st b = Some es ->
  showProcessed (run st es) = true -> holdsReply (run st es).
Proof.
  intros Hst. unfold press, render.
  destruct (hasCameraPermission st) as [[|]|], (showProcessed st) eqn:Hshow,
    (truthy (image st)) eqn:Himg, b; cbn [negb]; intro Hes;
    try discriminate; injection Hes as <-;
    rewrite ?request_keeps, ?Himg; unfold retakeCaptured, retakeProcessed,
      navigateToForm; updates; rewrite ?Hshow;
    try (intros; discriminate); exact Hst.
Qed.

(** In every reachable state, the processed view is backed by a reply. *)
Lemma reachable_holdsReply (st : State D) :
  reachable st -> showProcessed st = true -> holdsReply st.
Proof.
  induction 1 as [|st b es Hreach IH Hpress|st es k Hreach IH Hes].
  - discriminate.
  - now apply holdsReply_press with (b := b).
  - now apply holdsReply_settle.
Qed.

Lemma reachable_settled (st : State D) (es : list (Effect D)) :
  reachable st -> settles es -> reachable (run st es).
Proof.
  intros Hst Hes. rewrite <- (firstn_all es). now apply reachable_settle.
Qed.

(** Calculate is offered only over a reply: in every state that the
    component can reach, when the Calculate button is on the screen, the
    image shown is the data URI made from a reply, and the press navigates
    to a screen that [App] registers, with the dimensions of a reply and
    never with the empty array that the state starts from. *)
Theorem calculate_hands_on_a_reply (st : State D) (es : list (Effect D)) :
  reachable st ->
  press st PressCalculate = Some es ->
  exists base64Image d spinner errorText,
    es = [Navigate "Form" (ReplyDimensions d)]
    /\ In "Form" App.screens
    /\ render st
       = Screen spinner
           (ProcessedImage (Some ("data:image/jpeg;base64," ++ base64Image)))
           RetakeAndCalculate errorText.
Proof.
  intros Hreach Hpress. unfold press in Hpress.
  destruct (render st) as [|spinner main buttons errorText] eqn:Hrender;
    [discriminate|].
  destruct buttons; try discriminate. injection Hpress as <-.
  unfold render in Hrender.
  destruct (hasCameraPermission st) as [[|]|]; try discriminate;
    destruct (showProcessed st) eqn:Hshow; cbn [negb] in Hrender;
    try (destruct (truthy (image st)); discriminate);
    destruct (reachable_holdsReply Hreach Hshow) as (b64 & d & Himg & Hdims);
    injection Hrender as <- <- <-;
    exists b64, d; do 2 eexists; unfold navigateToForm; rewrite Hdims, Himg;
    (split; [reflexivity|split; [right; left; reflexivity|reflexivity]]).
Qed.

(** A rejected request changes the spinner and the error text, and nothing
    else.  The captured image, the processed image, the dimensions and the
    flags stay as they were, the spinner is off, and the error is the
    server's answer if there was one, the message of the error otherwise,
    after a fixed prefix, so it is never empty.  On the screen, whenever the component shows one
    and not the no-access text, the same image and the same buttons are
    drawn, without the spinner and with that error displayed; while the
    permission is denied the no-access text stays and the error is not
    shown. *)
Theorem rejected_request_keeps_the_view (st : State D) (e : RequestError) :
  let detail := match response e with Some data => data | None => message e end in
  let st' := run st (processImage_settle (Rejected e)) in
  st' = {| hasCameraPermission := hasCameraPermission st;
           image := image st;
           processingImage := processingImage st;
           imageDimensions := imageDimensions st;
           error := Some ("Error processing image: " ++ detail);
           showProcessed := showProcessed st;
           loading := false |}
  /\ truthy (error st') = true
  /\ (forall spinner main buttons errorText,
        render st = Screen spinner main buttons errorText ->
        render st'
        = Screen false main buttons (Some ("Error processing image: " ++ detail)))
  /\ (render st = NoAccessToCamera -> render st' = NoAccessToCamera).
Proof.
  cbv zeta. split; [reflexivity|]. split; [reflexivity|].
  unfold processImage_settle. updates. unfold render.
  cbn [hasCameraPermission image processingImage error showProcessed loading truthy].
  destruct (hasCameraPermission st) as [[|]|]; split;
    intros; try discriminate; try reflexivity;
    match goal with
    | Hr : Screen _ _ _ _ = Screen _ _ _ _ |- _ => injection Hr as _ <- <- _
    end; reflexivity.
Qed.

(** Only a reply clears the error: no press changes [error], nor does the
    answer to the permission request or a settled shot, and a rejected
    request leaves a displayed error displayed at every update.  So a
    message stays on the screen through Re-take and a new picture. *)
Theorem error_stays_until_a_reply (st : State D) :
  (forall b es, press st b = Some es -> error (run st es) = error st)
  /\ (forall status k,
        error (run st (firstn k (permissionAnswered status))) = error st)
  /\ (forall cameraReady shot k,
        error (run st (firstn k (takePicture cameraReady shot))) = error st)
  /\ (forall e k,
        truthy (error st) = true ->
        truthy (error (run st (firstn k (processImage_settle (Rejected e))))) = true).
Proof.
  split; [|split; [|split]].
  - intros b es. unfold press, render.
    destruct (hasCameraPermission st) as [[|]|], (showProcessed st),
      (truthy (image st)) eqn:Himg, b; cbn [negb]; intro Hes;
      try discriminate; injection Hes as <-;
      rewrite ?request_keeps, ?Himg; reflexivity.
  - intros status k. unfold permissionAnswered. prefixes k; reflexivity.
  - intros cameraReady shot k. unfold takePicture.
    destruct cameraReady; [destruct shot|]; prefixes k; reflexivity.
  - intros e k Herr. unfold processImage_settle. updates.
    prefixes k; updates; try exact Herr; reflexivity.
Qed.

(** Re-take leads back to the camera, whichever of the two Re-take buttons
    it is: after the press the screen shows the camera preview and the
    Take a Picture button, with the spinner and the error text as they
    were. *)
Theorem retake_returns_to_the_camera (st : State D) (es : list (Effect D)) :
  press st PressRetake = Some es ->
  render (run st es)
  = Screen (loading st) CameraPreview TakeAPicture
      (if truthy (error st) then error st else None)
  /\ image (run st es) = None
  /\ showProcessed (run st es) = false.
Proof.
  unfold press, render.
  destruct (hasCameraPermission st) as [[|]|] eqn:Hperm, (showProcessed st) eqn:Hshow,
    (truthy (image st)) eqn:Himg; cbn [negb]; intro Hes;
    try discriminate; injection Hes as <-;
    unfold retakeCaptured, retakeProcessed; updates; rewrite Hperm, ?Hshow;
    repeat split; reflexivity.
Qed.

(** Taking a picture and pressing Re-take is a round trip: from a state
    that shows the camera, the picture brings up the Re-take button, and
    the press gives the state back as it was. *)
Theorem retake_undoes_the_shot (st : State D) (uri : string) :
  hasCameraPermission st <> Some false ->
  image st = None ->
  showProcessed st = false ->
  uri <> "" ->
  press (run st (takePicture true (Captured uri))) PressRetake = Some retakeCaptured
  /\ run (run st (takePicture true (Captured uri))) retakeCaptured = st.
Proof.
  intros Hperm Himg Hshow Huri. apply String.eqb_neq in Huri.
  destruct st as [perm img proc dims err show load]. cbn in Hperm, Himg, Hshow.
  subst img show. unfold press, render, takePicture, retakeCaptured. updates.
  cbn [truthy negb]. rewrite Huri. cbn [negb].
  destruct perm as [[|]|]; [split; reflexivity|now elim Hperm|split; reflexivity].
Qed.

(** The Process button is not held back while a request is on its way:
    whenever it is on the screen, a press posts the captured file and
    switches the spinner on, the button is still there for a second press,
    which posts the same file again, and the first answer to arrive
    switches the spinner off although one request is still pending. *)
Theorem process_can_be_pressed_twice (st : State D) (spinner : bool)
    (main : MainView) (errorText : option string) (reply : Reply D) :
  render st = Screen spinner main RetakeAndProcess errorText ->
  exists uri request,
    image st = Some uri
    /\ request = [SetLoading true;
                  Post "https://arucoback.onrender.com/process_image" uri
                       "image/jpeg" "photo.jpg"]
    /\ press st PressProcess = Some request
    /\ press (run st request) PressProcess = Some request
    /\ loading (run (run st request) request) = true
    /\ loading (run (run (run st request) request) (processImage_settle reply)) = false.
Proof.
  unfold render.
  destruct (hasCameraPermission st) as [[|]|] eqn:Hperm; try discriminate;
    destruct (showProcessed st) eqn:Hshow; cbn [negb]; try discriminate;
    destruct (truthy (image st)) eqn:Himg; cbn [negb]; try discriminate;
    intros _; destruct (image st) as [uri|] eqn:Hi; try discriminate;
    exists uri; eexists; (split; [reflexivity|]); (split; [reflexivity|]);
    unfold press, render, processImage_request; updates;
    rewrite Hperm, Hshow, Hi, Himg; cbn [negb];
    repeat split; try reflexivity;
    destruct reply; reflexivity.
Qed.

(** A denied permission is final for the screen: the component shows the
    no-access text, no button can be pressed, and whatever a shot or a
    request that was on its way settles with, every state on the way still
    shows the text. *)
Theorem denied_permission_blanks_the_screen (st : State D) :
  hasCameraPermission st = Some false ->
  render st = NoAccessToCamera
  /\ (forall b, press st b = None)
  /\ (forall cameraReady shot k,
        render (run st (firstn k (takePicture cameraReady shot))) = NoAccessToCamera)
  /\ (forall reply k,
        render (run st (firstn k (processImage_settle reply))) = NoAccessToCamera).
Proof.
  intro Hperm. unfold press, render. split; [now rewrite Hperm|].
  split; [intro b; now rewrite Hperm|]. split.
  - intros cameraReady shot k. unfold takePicture.
    destruct cameraReady; [destruct shot|]; prefixes k; updates; now rewrite Hperm.
  - intros reply k. unfold processImage_settle.
    destruct reply; updates; prefixes k; updates; now rewrite Hperm.
Qed.

(** From the first mount to the form: with the permission granted, a
    picture taken and the request answered, the screen goes from the camera
    to the captured image, to the same with the spinner, to the processed
    image; Process posts the captured file, and Calculate navigates to the
    form with exactly the dimensions of the reply. *)
Theorem capture_process_calculate (uri base64Image : string) (d : D) :
  uri <> "" ->
  let st1 := run initialState (permissionAnswered "granted") in
  let st2 := run st1 (takePicture true (Captured uri)) in
  let request := [SetLoading true;
                  Post "https://arucoback.onrender.com/process_image" uri
                       "image/jpeg" "photo.jpg"] in
  let st3 := run st2 request in
  let st4 := run st3 (processImage_settle (Replied base64Image d)) in
  render st1 = Screen false CameraPreview TakeAPicture None
  /\ render st2 = Screen false (CapturedImage (Some uri)) RetakeAndProcess None
  /\ press st2 PressProcess = Some request
  /\ render st3 = Screen true (CapturedImage (Some uri)) RetakeAndProcess None
  /\ render st4
     = Screen false
         (ProcessedImage (Some ("data:image/jpeg;base64," ++ base64Image)))
         RetakeAndCalculate None
  /\ press st4 PressCalculate = Some [Navigate "Form" (ReplyDimensions d)].
Proof.
  intro Huri. apply String.eqb_neq in Huri. cbv zeta.
  unfold press, render, processImage_request, processImage_settle, takePicture,
    permissionAnswered, navigateToForm, initialState.
  updates. cbn [truthy negb String.eqb Ascii.eqb Bool.eqb andb]. rewrite Huri. cbn [negb].
  repeat split; reflexivity.
Qed.

End Capture.

End HomeScreenFacts.

(** ** The capture screen on one session *)

Module HomeScreenRuns.

Import HomeScreen HomeScreenFacts.
Local Open Scope string_scope.

Lemma calculate_hands_on_a_reply_witness :
  exists base64Image d spinner errorText,
    [Navigate "Form" (ReplyDimensions (4, 3)%Z)]
    = [Navigate "Form" (ReplyDimensions d)]
    /\ In "Form" App.screens
    /\ render
         (run (run (run initialState (takePicture true (Captured "file:///photo.jpg")))
                   [SetLoading true;
                    Post "https://arucoback.onrender.com/process_image"
                         "file:///photo.jpg" "image/jpeg" "photo.jpg"])
              (processImage_settle (Replied "AAAA" (4, 3)%Z)))
       = Screen spinner
           (ProcessedImage (Some ("data:image/jpeg;base64," ++ base64Image)))
           RetakeAndCalculate errorText.
Proof.
  apply (@calculate_hands_on_a_reply (Z * Z)
           (run (run (run initialState (takePicture true (Captured "file:///photo.jpg")))
                     [SetLoading true;
                      Post "https://arucoback.onrender.com/process_image"
                           "file:///photo.jpg" "image/jpeg" "photo.jpg"])
                (processImage_settle (Replied "AAAA" (4, 3)%Z)))).
  - apply reachable_settled; [|constructor].
    apply reachable_press with (b := PressProcess); [|reflexivity].
    apply reachable_settled; [|constructor]. constructor.
  - reflexivity.
Defined.

Lemma retake_returns_to_the_camera_witness :
  render (run (run (@initialState (Z * Z))
                   (takePicture true (Captured "file:///photo.jpg")))
              retakeCaptured)
  = Screen false CameraPreview TakeAPicture None
  /\ image (run (run (@initialState (Z * Z))
                     (takePicture true (Captured "file:///photo.jpg")))
                retakeCaptured) = None
  /\ showProcessed (run (run (@initialState (Z * Z))
                             (takePicture true (Captured "file:///photo.jpg")))
                        retakeCaptured) = false.
Proof.
  apply (@retake_returns_to_the_camera (Z * Z)
           (run initialState (takePicture true (Captured "file:///photo.jpg")))).
  reflexivity.
Defined.

Lemma retake_undoes_the_shot_witness :
  press (run (@initialState (Z * Z)) (takePicture true (Captured "file:///photo.jpg")))
        PressRetake
  = Some retakeCaptured
  /\ run (run (@initialState (Z * Z)) (takePicture true (Captured "file:///photo.jpg")))
         retakeCaptured
     = initialState.
Proof.
  apply (@retake_undoes_the_shot (Z * Z) initialState "file:///photo.jpg");
    try reflexivity; discriminate.
Defined.

Lemma process_can_be_pressed_twice_witness :
  exists uri request,
    image (run (@initialState (Z * Z)) (takePicture true (Captured "file:///photo.jpg")))
    = Some uri
    /\ request = [SetLoading true;
                  Post "https://arucoback.onrender.com/process_image" uri
                       "image/jpeg" "photo.jpg"]
    /\ press (run initialState (takePicture true (Captured "file:///photo.jpg")))
             PressProcess = Some request
    /\ press (run (run initialState (takePicture true (Captured "file:///photo.jpg")))
                  request)
             PressProcess = Some request
    /\ loading (run (run (run initialState
                              (takePicture true (Captured "file:///photo.jpg")))
                         request) request) = true
    /\ loading (run (run (run (run initialState
                                   (takePicture true (Captured "file:///photo.jpg")))
                              request) request)
                    (processImage_settle (Replied "AAAA" (4, 3)%Z))) = false.
Proof.
  apply (@process_can_be_pressed_twice (Z * Z)
           (run initialState (takePicture true (Captured "file:///photo.jpg")))
           false (CapturedImage (Some "file:///photo.jpg")) None).
  reflexivity.
Defined.

Lemma denied_permission_blanks_the_screen_witness :
  render (run (@initialState (Z * Z)) (permissionAnswered "denied")) = NoAccessToCamera
  /\ (forall b, press (run (@initialState (Z * Z)) (permissionAnswered "denied")) b = None)
  /\ (forall cameraReady shot k,
        render (run (run (@initialState (Z * Z)) (permissionAnswered "denied"))
                    (firstn k (takePicture cameraReady shot)))
        = NoAccessToCamera)
  /\ (forall reply k,
        render (run (run (@initialState (Z * Z)) (permissionAnswered "denied"))
                    (firstn k (processImage_settle reply)))
        = NoAccessToCamera).
Proof.
  apply (@denied_permission_blanks_the_screen (Z * Z)
           (run initialState (permissionAnswered "denied"))).
  reflexivity.
Defined.

Lemma capture_process_calculate_witness :
  render (run (@initialState (Z * Z)) (permissionAnswered "granted"))
  = Screen false CameraPreview TakeAPicture None
  /\ render (run (run (@initialState (Z * Z)) (permissionAnswered "granted"))
                 (takePicture true (Captured "file:///photo.jpg")))
     = Screen false (CapturedImage (Some "file:///photo.jpg")) RetakeAndProcess None
  /\ press (run (run (@initialState (Z * Z)) (permissionAnswered "granted"))
                (takePicture true (Captured "file:///photo.jpg")))
           PressProcess
     = Some [SetLoading true;
             Post "https://arucoback.onrender.com/process_image"
                  "file:///photo.jpg" "image/jpeg" "photo.jpg"]
  /\ render (run (run (run (@initialState (Z * Z)) (permissionAnswered "granted"))
                      (takePicture true (Captured "file:///photo.jpg")))
                 [SetLoading true;
                  Post "https://arucoback.onrender.com/process_image"
                       "file:///photo.jpg" "image/jpeg" "photo.jpg"])
     = Screen true (CapturedImage (Some "file:///photo.jpg")) RetakeAndProcess None
  /\ render (run (run (run (run (@initialState (Z * Z)) (permissionAnswered "granted"))
                           (takePicture true (Captured "file:///photo.jpg")))
                      [SetLoading true;
                       Post "https://arucoback.onrender.com/process_image"
                            "file:///photo.jpg" "image/jpeg" "photo.jpg"])
                 (processImage_settle (Replied "AAAA" (4, 3)%Z)))
     = Screen false (ProcessedImage (Some ("data:image/jpeg;base64," ++ "AAAA")))
         RetakeAndCalculate None
  /\ press (run (run (run (run (@initialState (Z * Z)) (permissionAnswered "granted"))
                          (takePicture true (Captured "file:///photo.jpg")))
                     [SetLoading true;
                      Post "https://arucoback.onrender.com/process_image"
                           "file:///photo.jpg" "image/jpeg" "photo.jpg"])
                (processImage_settle (Replied "AAAA" (4, 3)%Z)))
           PressCalculate
     = Some [Navigate "Form" (ReplyDimensions (4, 3)%Z)].
Proof.
  apply (@capture_process_calculate (Z * Z) "file:///photo.jpg" "AAAA" (4, 3)%Z).
  discriminate.
Defined.

End HomeScreenRuns.

(** ** The geometry of the layout over the real numbers *)

Module LayoutGeometry.

Import Exact ExactLayout.
Local Open Scope R_scope.

Lemma In_gridCells_intro (w h : R) (nr nc row col : nat) :
  (row < nr)%nat -> (col < nc)%nat ->
  In (cellCenter w h nr nc row col) (gridCells w h nr nc).
Proof.
  intros Hrow Hcol. unfold gridCells. apply in_flat_map.
  exists row. split; [apply in_seq; lia|].
  apply in_map_iff. exists col. split; [reflexivity|apply in_seq; lia].
Qed.

(** Two different cells are at least one spacing apart, across or down. *)
Lemma cell_separation (w h : R) (nr nc row col row' col' : nat) :
  0 < w -> 0 < h ->
  (row < nr)%nat -> (col < nc)%nat -> (row' < nr)%nat -> (col' < nc)%nat ->
  (row, col) <> (row', col') ->
  w / INR nc <= Rabs (x (cellCenter w h nr nc row col) - x (cellCenter w h nr nc row' col'))
  \/ h / INR nr <= Rabs (y (cellCenter w h nr nc row col) - y (cellCenter w h nr nc row' col')).
Proof.
  intros Hw Hh Hrow Hcol Hrow' Hcol' Hne.
  assert (Hnc : 0 < INR nc) by (apply lt_0_INR; lia).
  assert (Hnr : 0 < INR nr) by (apply lt_0_INR; lia).
  assert (Hsx : 0 < w / INR nc) by now apply Rdiv_lt_0_compat.
  assert (Hsy : 0 < h / INR nr) by now apply Rdiv_lt_0_compat.
  unfold cellCenter. cbn [x y].
  set (sx := w / INR nc) in *. set (sy := h / INR nr) in *.
  destruct (Nat.lt_total col col') as [Hc|[Hc|Hc]].
  - left. assert (INR col + 1 <= INR col') by (rewrite <- S_INR; apply le_INR; lia).
    unfold Rabs. destruct (Rcase_abs _); nra.
  - subst col'. right.
    destruct (Nat.lt_total row row') as [Hr|[Hr|Hr]].
    + assert (INR row + 1 <= INR row') by (rewrite <- S_INR; apply le_INR; lia).
      unfold Rabs. destruct (Rcase_abs _); nra.
    + subst row'. now elim Hne.
    + assert (INR row' + 1 <= INR row) by (rewrite <- S_INR; apply le_INR; lia).
      unfold Rabs. destruct (Rcase_abs _); nra.
  - left. assert (INR col' + 1 <= INR col) by (rewrite <- S_INR; apply le_INR; lia).
    unfold Rabs. destruct (Rcase_abs _); nra.
Qed.

Lemma cellCenter_inj (w h : R) (nr nc row col row' col' : nat) :
  0 < w -> 0 < h ->
  (row < nr)%nat -> (col < nc)%nat -> (row' < nr)%nat -> (col' < nc)%nat ->
  cellCenter w h nr nc row col = cellCenter w h nr nc row' col' ->
  (row, col) = (row', col').
Proof.
  intros Hw Hh Hrow Hcol Hrow' Hcol' Heq.
  destruct (Nat.eq_dec row row') as [Er|Hr], (Nat.eq_dec col col') as [Ec|Hc];
    [now rewrite Er, Ec| | |]; exfalso.
  all: assert (Hne : (row, col) <> (row', col')) by congruence.
  all: assert (Hnc : 0 < INR nc) by (apply lt_0_INR; lia).
  all: assert (Hnr : 0 < INR nr) by (apply lt_0_INR; lia).
  all: assert (Hsx : 0 < w / INR nc) by now apply Rdiv_lt_0_compat.
  all: assert (Hsy : 0 < h / INR nr) by now apply Rdiv_lt_0_compat.
  all: destruct (cell_separation (nr := nr) (nc := nc) Hw Hh Hrow Hcol Hrow' Hcol' Hne)
         as [Hsep|Hsep]; rewrite Heq, Rminus_diag, Rabs_R0 in Hsep; lra.
Qed.

Lemma rows_of_cols_as_prod (A : Type) (f : nat -> nat -> A) (cols rows : list nat) :
  flat_map (fun row => map (f row) cols) rows
  = map (fun rc => f (fst rc) (snd rc)) (list_prod rows cols).
Proof.
  induction rows as [|row rows IH]; cbn; [reflexivity|].
  now rewrite map_app, map_map, IH.
Qed.

Lemma NoDup_list_prod (A B : Type) (l : list A) (l' : list B) :
  NoDup l -> NoDup l' -> NoDup (list_prod l l').
Proof.
  intros Hl Hl'. induction Hl as [|a l Hnotin _ IH]; cbn; [constructor|].
  apply NoDup_app.
  - apply NoDup_map_NoDup_ForallPairs; [|exact Hl'].
    intros b b' _ _ Hbb. now injection Hbb.
  - exact IH.
  - intros [a' b'] Hin Hin'. apply in_map_iff in Hin. destruct Hin as (b0 & Hb0 & _).
    injection Hb0 as <- <-. apply in_prod_iff in Hin'. now destruct Hin'.
Qed.

Lemma NoDup_gridCells (w h : R) (nr nc : nat) :
  0 < w -> 0 < h -> NoDup (gridCells w h nr nc).
Proof.
  intros Hw Hh. unfold gridCells.
  rewrite (rows_of_cols_as_prod (cellCenter w h nr nc)).
  apply NoDup_map_NoDup_ForallPairs.
  - intros [row col] [row' col'] Hin Hin' Heq. cbn [fst snd] in Heq.
    apply in_prod_iff in Hin. apply in_prod_iff in Hin'.
    destruct Hin as [Hr Hc], Hin' as [Hr' Hc'].
    apply in_seq in Hr, Hc, Hr', Hc'.
    apply (cellCenter_inj (w := w) (h := h) (nr := nr) (nc := nc)); try assumption; lia.
  - apply NoDup_list_prod; apply seq_NoDup.
Qed.

Lemma grid_is_near_square_Z (n : Z) :
  (1 <= n)%Z -> (gridCols n - 1 <= gridRows n <= gridCols n)%Z.
Proof.
  intro Hn. destruct (gridCols_spec Hn) as (Hc1 & Hclo & Hchi).
  destruct (gridRows_spec Hn) as (Hr1 & Hrlo & Hrhi).
  split; [|now apply gridRows_le_gridCols].
  destruct (Z_le_gt_dec (gridCols n - 1) (gridRows n)) as [Hle|Hgt]; [exact Hle|].
  exfalso. nia.
Qed.

Lemma labels_of_lines (num : Type) (ds : list (Distance num)) :
  map (@focusLabel num) (renderDistances (Some ds)) = seq 1 (List.length ds).
Proof.
  unfold renderDistances. rewrite map_map. cbn [focusLabel].
  generalize 1%nat as start. induction ds as [|d ds IH]; intro start; cbn;
    [reflexivity|now rewrite IH].
Qed.

(** On positive area dimensions, a window wider than the margin and an
    integer count from one on, [renderFocusGrid] draws every cell. *)
Lemma renderFocusGrid_all_dots (sw w h : R) (n : Z) (fuel : nat) :
  0 < w -> 0 < h -> (1 <= n)%Z -> 40 < sw ->
  (Z.to_nat (gridRows n) < fuel)%nat -> (Z.to_nat (gridCols n) < fuel)%nat ->
  renderFocusGrid fuel sw {| width := w; height := h |} (IZR n)
  = Some (RenderedGrid (sw - 40) ((sw - 40) / (w / h))
            (flat_map
               (fun row =>
                  map (focusAt (sw - 40) ((sw - 40) / (w / h))
                         (Z.to_nat (gridRows n)) (Z.to_nat (gridCols n)) row)
                      (seq 0 (Z.to_nat (gridCols n))))
               (seq 0 (Z.to_nat (gridRows n))))).
Proof.
  intros Hw Hh Hn Hsw Hr Hc.
  assert (Hcw : 0 < sw - 40) by lra.
  assert (Hch : 0 < (sw - 40) / (w / h)).
  { apply Rdiv_lt_0_compat; [lra|]. now apply Rdiv_lt_0_compat. }
  rewrite renderFocusGrid_exact by assumption. cbv zeta. do 2 f_equal.
  apply flat_map_ext_on. intros row Hrow. apply in_seq in Hrow. f_equal.
  apply filter_all. intros col Hcol. apply in_seq in Hcol.
  destruct (cell_inside (w := sw - 40) (h := (sw - 40) / (w / h))
              (nr := Z.to_nat (gridRows n)) (nc := Z.to_nat (gridCols n))
              (row := row) (col := col) Hcw Hch) as [[_ Hx] [_ Hy]]; [lia|lia|].
  unfold within. apply andb_true_intro. split; apply Rleb_true; lra.
Qed.

(** The grid is as square as the count allows: it has as many rows as
    columns, or one row less. *)
Theorem grid_is_near_square (n : Z) :
  (1 <= n)%Z ->
  numCols (IZR n) - 1 <= numRows (IZR n) <= numCols (IZR n).
Proof.
  intro Hn. rewrite numCols_IZR, numRows_IZR.
  destruct (grid_is_near_square_Z Hn) as [Hlo Hhi].
  split; [rewrite <- minus_IZR|]; now apply IZR_le.
Qed.

Lemma grid_is_near_square_witness :
  numCols (IZR 5) - 1 <= numRows (IZR 5) <= numCols (IZR 5).
Proof. apply (@grid_is_near_square 5). lia. Defined.

(** The list has one position per counted fixture exactly when the count
    is a square [k * k] or a product [k * (k + 1)]; for every other count
    it is longer than the count. *)
Theorem one_position_per_fixture_iff (w h : R) (n : Z) :
  0 < w -> 0 < h -> (1 <= n)%Z ->
  exists fuel ds,
    calculateDistances fuel {| width := w; height := h |} (IZR n) = Some ds
    /\ (n <= Z.of_nat (List.length ds))%Z
    /\ (Z.of_nat (List.length ds) = n
        <-> exists k, (1 <= k /\ (n = k * k \/ n = k * (k + 1)))%Z).
Proof.
  intros Hw Hh Hn.
  destruct (gridCols_spec Hn) as (Hc1 & Hclo & Hchi).
  destruct (gridRows_spec Hn) as (Hr1 & Hrlo & Hrhi).
  destruct (grid_is_near_square_Z Hn) as [Hnear Hle].
  exists (S (Z.to_nat (gridRows n) + Z.to_nat (gridCols n))). eexists.
  split; [apply calculateDistances_all_cells; try assumption; lia|].
  rewrite length_gridCells, Nat2Z.inj_mul, !Z2Nat.id by lia.
  set (c := gridCols n) in *. set (r := gridRows n) in *.
  split; [lia|]. split.
  - intro Hfit. destruct (Z.eq_dec r c) as [Hrc|Hrc].
    + exists c. split; [lia|]. left. rewrite <- Hfit, Hrc. reflexivity.
    + exists r. split; [lia|]. right.
      assert (Hc : c = (r + 1)%Z) by lia. rewrite <- Hfit, Hc. reflexivity.
  - intros (k & Hk & [Hsq|Hpr]).
    + assert (Hck : c = k) by nia. assert (Hrk : r = k) by nia. nia.
    + assert (Hck : c = (k + 1)%Z) by nia. assert (Hrk : r = k) by nia. nia.
Qed.

Lemma one_position_per_fixture_iff_witness :
  exists fuel ds,
    calculateDistances fuel {| width := 5; height := 5 |} (IZR 5) = Some ds
    /\ (5 <= Z.of_nat (List.length ds))%Z
    /\ (Z.of_nat (List.length ds) = 5%Z
        <-> exists k, (1 <= k /\ (5 = k * k \/ 5 = k * (k + 1)))%Z).
Proof.
  apply (@one_position_per_fixture_iff 5 5 5); [lra|lra|lia].
Defined.

(** The layout is symmetric about the centre of the area: with every
    position [(x, y)] the list holds [(width - x, height - y)]. *)
Theorem layout_is_symmetric (w h : R) (n : Z) (fuel : nat)
    (ds : list (Distance R)) :
  0 < w -> 0 < h -> (1 <= n)%Z ->
  calculateDistances fuel {| width := w; height := h |} (IZR n) = Some ds ->
  Forall (fun p => In {| x := w - x p; y := h - y p |} ds) ds.
Proof.
  intros Hw Hh Hn Hrun. apply Forall_forall. intros p Hp.
  apply calculateDistances_returns_cells in Hrun; try assumption. subst ds.
  apply In_gridCells in Hp. destruct Hp as (row & col & Hrow & Hcol & ->).
  set (nr := Z.to_nat (gridRows n)) in *. set (nc := Z.to_nat (gridCols n)) in *.
  assert (Hnc : 0 < INR nc) by (apply lt_0_INR; lia).
  assert (Hnr : 0 < INR nr) by (apply lt_0_INR; lia).
  replace {| x := w - x (cellCenter w h nr nc row col);
             y := h - y (cellCenter w h nr nc row col) |}
    with (cellCenter w h nr nc (nr - 1 - row) (nc - 1 - col)).
  - apply In_gridCells_intro; lia.
  - unfold cellCenter. cbn [x y].
    rewrite !minus_INR by lia. change (INR 1) with 1.
    f_equal; field; lra.
Qed.

Lemma layout_is_symmetric_witness :
  Forall (fun p =>
            In {| x := 4 - x p; y := 3 - y p |}
               (gridCells 4 3 (Z.to_nat (gridRows 4)) (Z.to_nat (gridCols 4))))
         (gridCells 4 3 (Z.to_nat (gridRows 4)) (Z.to_nat (gridCols 4))).
Proof.
  apply (@layout_is_symmetric 4 3 4
           (S (Z.to_nat (gridRows 4) + Z.to_nat (gridCols 4)))); [lra|lra|lia|].
  apply calculateDistances_all_cells; [lra|lra|lia|lia|lia].
Defined.

(** No position is stored twice. *)
Theorem positions_are_distinct (w h : R) (n : Z) (fuel : nat)
    (ds : list (Distance R)) :
  0 < w -> 0 < h -> (1 <= n)%Z ->
  calculateDistances fuel {| width := w; height := h |} (IZR n) = Some ds ->
  NoDup ds.
Proof.
  intros Hw Hh Hn Hrun.
  apply calculateDistances_returns_cells in Hrun; try assumption. subst ds.
  now apply NoDup_gridCells.
Qed.

Lemma positions_are_distinct_witness :
  NoDup (gridCells 4 3 (Z.to_nat (gridRows 4)) (Z.to_nat (gridCols 4))).
Proof.
  apply (@positions_are_distinct 4 3 4
           (S (Z.to_nat (gridRows 4) + Z.to_nat (gridCols 4)))); [lra|lra|lia|].
  apply calculateDistances_all_cells; [lra|lra|lia|lia|lia].
Defined.

(** Fixtures keep their distance: two different positions of the list lie
    at least [spacingX = width / numCols] apart across, or at least
    [spacingY = height / numRows] apart down. *)
Theorem positions_are_a_spacing_apart (w h : R) (n : Z) (fuel : nat)
    (ds : list (Distance R)) :
  0 < w -> 0 < h -> (1 <= n)%Z ->
  calculateDistances fuel {| width := w; height := h |} (IZR n) = Some ds ->
  ForallPairs
    (fun p q =>
       p = q
       \/ w / numCols (IZR n) <= Rabs (x p - x q)
       \/ h / numRows (IZR n) <= Rabs (y p - y q))
    ds.
Proof.
  intros Hw Hh Hn Hrun p q Hp Hq.
  apply calculateDistances_returns_cells in Hrun; try assumption. subst ds.
  destruct (gridCols_spec Hn) as (Hc1 & _). destruct (gridRows_spec Hn) as (Hr1 & _).
  rewrite numCols_IZR, numRows_IZR.
  rewrite <- (INR_to_nat (z := gridRows n)), <- (INR_to_nat (z := gridCols n)) by lia.
  apply In_gridCells in Hp. destruct Hp as (row & col & Hrow & Hcol & ->).
  apply In_gridCells in Hq. destruct Hq as (row' & col' & Hrow' & Hcol' & ->).
  destruct (Nat.eq_dec row row') as [Er|Hr], (Nat.eq_dec col col') as [Ec|Hc];
    [left; now rewrite Er, Ec| | |]; right;
    apply cell_separation; try assumption; congruence.
Qed.

Lemma positions_are_a_spacing_apart_witness :
  ForallPairs
    (fun p q =>
       p = q
       \/ 4 / numCols (IZR 4) <= Rabs (x p - x q)
       \/ 3 / numRows (IZR 4) <= Rabs (y p - y q))
    (gridCells 4 3 (Z.to_nat (gridRows 4)) (Z.to_nat (gridCols 4))).
Proof.
  apply (@positions_are_a_spacing_apart 4 3 4
           (S (Z.to_nat (gridRows 4) + Z.to_nat (gridCols 4)))); [lra|lra|lia|].
  apply calculateDistances_all_cells; [lra|lra|lia|lia|lia].
Defined.

(** The count grows with the need and shrinks with the fixture: it does
    not decrease when the width, the height or the illuminance grows, nor
    when the output per fixture drops. *)
Theorem fixture_count_monotone_in_every_input (w h req out w' h' req' out' : R) :
  0 < w <= w' -> 0 < h <= h' -> 0 < req <= req' -> 0 < out' <= out ->
  calculateNumFoci {| width := w; height := h |} out req
  <= calculateNumFoci {| width := w'; height := h' |} out' req'.
Proof.
  intros [Hw Hww] [Hh Hhh] [Hr Hrr] [Ho Hoo]. rewrite !calculateNumFoci_exact.
  apply IZR_le, Rceil_mono.
  assert (Hwh : 0 < w * h) by now apply Rmult_lt_0_compat.
  assert (Hwh' : w * h <= w' * h') by nra.
  assert (Hflux : 0 < req * w * h) by nra.
  assert (Hflux' : req * w * h <= req' * w' * h') by nra.
  assert (Hinv : / out <= / out') by (apply Rinv_le_contravar; lra).
  assert (Hinv0 : 0 < / out) by (apply Rinv_0_lt_compat; lra).
  unfold Rdiv. nra.
Qed.

Lemma fixture_count_monotone_in_every_input_witness :
  calculateNumFoci {| width := 4; height := 3 |} 900 300
  <= calculateNumFoci {| width := 5; height := 4 |} 800 500.
Proof.
  apply (@fixture_count_monotone_in_every_input 4 3 300 900 5 4 500 800); lra.
Defined.

(** An area of zero is not refused.  With valid lumens and luxes and a
    width or a height of zero, the handler stores a count of zero and an
    empty list, with any fuel at all, and [renderFocusGrid] of that count
    is [null]: the screen says that zero lights are needed and shows no
    grid.  (The quotient 0 / 0 that [numRows] takes is NaN in the engine
    and 0 here; the loop over the rows makes no iteration either way.) *)
Theorem zero_area_gives_an_empty_plan (w h req out sw : R) (fuel : nat)
    (st : FormState R) :
  w * h = 0 -> 0 < req -> 0 < out ->
  handleCalculate (S fuel) {| width := w; height := h |} out req
  = Some [SetFocusCount 0; SetDistances []]
  /\ renderResults (S fuel) sw {| width := w; height := h |}
       (runEffects st [SetFocusCount 0; SetDistances []])
     = Some (Some {| lightsNeeded := 0; focusGrid := RenderedNull;
                     distanceLines := [] |}).
Proof.
  intros Hwh Hreq Hout.
  assert (Hn : calculateNumFoci {| width := w; height := h |} out req = 0).
  { rewrite calculateNumFoci_exact.
    replace (req * w * h / out) with (IZR 0)
      by (replace (req * w * h) with (req * (w * h)) by ring;
          rewrite Hwh; unfold Rdiv; ring).
    now rewrite Rceil_IZR. }
  assert (Hrows : numRows (IZR 0) = 0).
  { rewrite numRows_IZR. unfold gridRows.
    replace (IZR 0 / IZR (gridCols 0)) with (IZR 0) by (unfold Rdiv; ring).
    now rewrite Rceil_IZR. }
  split.
  - unfold handleCalculate.
    assert (Hok : invalidValues out req = false).
    { unfold invalidValues. cbn.
      assert (H1 : Rleb out 0 = false) by (apply Rleb_false; lra).
      assert (H2 : Rleb req 0 = false) by (apply Rleb_false; lra).
      now rewrite H1, H2. }
    rewrite Hok, Hn. unfold calculateDistances. rewrite Hrows.
    cbn [for_loop ltb R_number lit].
    assert (Hlt : Rltb 0 0 = false) by (apply Rltb_false; lra).
    now rewrite Hlt.
  - unfold renderResults, runEffects. cbn [fold_left applyEffect focusCount distances].
    unfold renderFocusGrid. cbn [leb lit R_number].
    assert (Hle : Rleb 0 0 = true) by (apply Rleb_true; lra).
    now rewrite Hle.
Qed.

Lemma zero_area_gives_an_empty_plan_witness :
  handleCalculate 1 {| width := 0; height := 5 |} 50 100
  = Some [SetFocusCount 0; SetDistances []]
  /\ renderResults 1 360 {| width := 0; height := 5 |}
       (runEffects {| focusCount := None; distances := None |}
                   [SetFocusCount 0; SetDistances []])
     = Some (Some {| lightsNeeded := 0; focusGrid := RenderedNull;
                     distanceLines := [] |}).
Proof.
  apply (@zero_area_gives_an_empty_plan 0 5 100 50 360 0
           {| focusCount := None; distances := None |}); lra.
Defined.

(** What the user sees after a valid calculation, in a window wider than
    the margin and whatever was shown before: the count [n], a grid with a
    dot for every one of the [numRows * numCols] cells, and a list of as
    many lines, labelled Focus 1 to Focus [numRows * numCols] in order.
    The labels run past the count whenever the grid has spare cells. *)
Theorem results_list_every_cell (w h req out sw : R) (st : FormState R) :
  0 < w -> 0 < h -> 0 < req -> 0 < out -> 40 < sw ->
  exists (n : Z) (fuel : nat) (es : list (Effect R)) (block : ResultBlock R),
    handleCalculate fuel {| width := w; height := h |} out req = Some es
    /\ renderResults fuel sw {| width := w; height := h |} (runEffects st es)
       = Some (Some block)
    /\ lightsNeeded block = IZR n
    /\ (exists cw ch dots,
          focusGrid block = RenderedGrid cw ch dots
          /\ Z.of_nat (List.length dots) = (gridRows n * gridCols n)%Z)
    /\ map (@focusLabel R) (distanceLines block)
       = seq 1 (Z.to_nat (gridRows n * gridCols n))
    /\ (n <= gridRows n * gridCols n)%Z.
Proof.
  intros Hw Hh Hreq Hout Hsw.
  set (n := Rceil (req * w * h / out)).
  assert (Hn : (1 <= n)%Z) by (apply Rceil_pos; now apply required_flux_ratio_pos).
  destruct (gridCols_spec Hn) as (Hc1 & _). destruct (gridRows_spec Hn) as (Hr1 & _).
  set (fuel := S (Z.to_nat (gridRows n) + Z.to_nat (gridCols n))).
  exists n, fuel. do 2 eexists.
  split; [apply handleCalculate_exact; try assumption; cbv zeta; fold n; unfold fuel; lia|].
  fold n. unfold renderResults, runEffects.
  cbn [fold_left applyEffect focusCount distances].
  rewrite renderFocusGrid_all_dots by (try assumption; unfold fuel; lia).
  split; [reflexivity|]. cbn [lightsNeeded focusGrid distanceLines].
  split; [reflexivity|]. split; [|split].
  - do 3 eexists. split; [reflexivity|].
    rewrite length_rows_of_cols, length_seq, Nat2Z.inj_mul, !Z2Nat.id by lia.
    reflexivity.
  - rewrite labels_of_lines, length_gridCells. f_equal.
    rewrite Z2Nat.inj_mul by lia. reflexivity.
  - apply grid_holds_count. exact Hn.
Qed.

Lemma results_list_every_cell_witness :
  exists (n : Z) (fuel : nat) (es : list (Effect R)) (block : ResultBlock R),
    handleCalculate fuel {| width := 5; height := 5 |} 1000 200 = Some es
    /\ renderResults fuel 360 {| width := 5; height := 5 |}
         (runEffects {| focusCount := None; distances := None |} es)
       = Some (Some block)
    /\ lightsNeeded block = IZR n
    /\ (exists cw ch dots,
          focusGrid block = RenderedGrid cw ch dots
          /\ Z.of_nat (List.length dots) = (gridRows n * gridCols n)%Z)
    /\ map (@focusLabel R) (distanceLines block)
       = seq 1 (Z.to_nat (gridRows n * gridCols n))
    /\ (n <= gridRows n * gridCols n)%Z.
Proof.
  apply (@results_list_every_cell 5 5 200 1000 360
           {| focusCount := None; distances := None |}); lra.
Defined.

End LayoutGeometry.

(** ** The placement loops, for every reading of the numbers *)

Section PlacementLoops.

Context {num : Type} `{JSNumber num}.




End PlacementLoops.

(** ** Loops whose counter keeps a property *)

Section CounterInvariant.

Context {num : Type} `{JSNumber num}.

(** An invariant of the accumulator that may rely on a property of the
    counter kept by [i++], and on the test [i < bound] having passed. *)
Lemma for_loop_invariant_counter (A : Type) (Q : num -> Prop) (P : A -> Prop)
    (body : num -> A -> option A) (bound : num) :
  (forall i, Q i -> Q (add i (lit 1))) ->
  (forall i acc r, Q i -> ltb i bound = true -> P acc -> body i acc = Some r -> P r) ->
  forall fuel i acc r,
    Q i -> P acc -> for_loop fuel i bound body acc = Some r -> P r.
Proof.
  intros Hnext Hbody. induction fuel as [|fuel IH]; intros i acc r Hi Hacc Hrun.
  - discriminate.
  - cbn in Hrun. destruct (ltb i bound) eqn:Hlt.
    + destruct (body i acc) as [acc'|] eqn:Hb; [|discriminate].
      apply (IH (add i (lit 1)) acc' r); [now apply Hnext| |exact Hrun].
      now apply (Hbody i acc acc').
    + injection Hrun as <-. exact Hacc.
Qed.

End CounterInvariant.

(** ** The placement in binary64: signs *)

Module Binary64Facts.

Import Double Binary64.

(** Rounding keeps the sign it is given. *)
Lemma binary_round_aux_sign (sx : bool) (mx ex : Z) (lx : location) :
  match binary_round_aux prec emax sx mx ex lx with
  | S754_nan => True
  | S754_zero s | S754_infinity s | S754_finite s _ _ => s = sx
  end.
Proof.
  unfold binary_round_aux.
  destruct (shr_fexp prec emax mx ex lx) as [mrs' e'].
  destruct (shr_fexp prec emax _ e' loc_Exact) as [mrs'' e''].
  destruct (shr_m mrs''); [reflexivity| |exact I].
  destruct (Z.leb e'' (emax - prec)); reflexivity.
Qed.

Lemma binary_round_aux_notNegative (mx ex : Z) (lx : location) :
  SFnotNegative (binary_round_aux prec emax false mx ex lx).
Proof.
  pose proof (binary_round_aux_sign false mx ex lx) as Hs. unfold SFnotNegative.
  destruct (binary_round_aux prec emax false mx ex lx); assumption.
Qed.

Lemma SFmul_notNegative (a b : spec_float) :
  SFnotNegative a -> SFnotNegative b -> SFnotNegative (SFmul prec emax a b).
Proof.
  destruct a as [sa|sa| |sa ma ea], b as [sb|sb| |sb mb eb]; cbn;
    intros Ha Hb; subst; try exact I; try reflexivity.
  apply binary_round_aux_notNegative.
Qed.

Lemma SFdiv_notNegative (a b : spec_float) :
  SFnotNegative a -> SFnotNegative b -> SFnotNegative (SFdiv prec emax a b).
Proof.
  destruct a as [sa|sa| |sa ma ea], b as [sb|sb| |sb mb eb]; cbn -[SFdiv_core_binary];
    intros Ha Hb; subst; try exact I; try reflexivity.
  destruct (SFdiv_core_binary prec emax (Z.pos ma) ea (Z.pos mb) eb) as [[mz ez] lz].
  apply binary_round_aux_notNegative.
Qed.

Lemma SFadd_notNegative (a b : spec_float) :
  SFnotNegative a -> SFnotNegative b -> SFnotNegative (SFadd prec emax a b).
Proof.
  destruct a as [sa|sa| |sa ma ea], b as [sb|sb| |sb mb eb];
    cbn -[binary_normalize shl_align];
    intros Ha Hb; subst; try exact I; try reflexivity.
  cbn [cond_Zopp Z.add binary_normalize]. unfold binary_round.
  destruct (shl_align _ _ _) as [mz ez].
  apply binary_round_aux_notNegative.
Qed.

Lemma notNegative_mul (a b : float) :
  notNegative a -> notNegative b -> notNegative (PrimFloat.mul a b).
Proof. unfold notNegative. rewrite FloatAxioms.mul_spec. apply SFmul_notNegative. Qed.

Lemma notNegative_div (a b : float) :
  notNegative a -> notNegative b -> notNegative (PrimFloat.div a b).
Proof. unfold notNegative. rewrite FloatAxioms.div_spec. apply SFdiv_notNegative. Qed.

Lemma notNegative_add (a b : float) :
  notNegative a -> notNegative b -> notNegative (PrimFloat.add a b).
Proof. unfold notNegative. rewrite FloatAxioms.add_spec. apply SFadd_notNegative. Qed.

Lemma notNegative_literals :
  notNegative (float_of_Z 0) /\ notNegative (float_of_Z 1) /\ notNegative (float_of_Z 2).
Proof. repeat split; vm_compute; reflexivity. Qed.

(** What lies above a value that is not negative is not negative. *)
Lemma notNegative_above (a b : float) :
  notNegative a -> PrimFloat.ltb a b = true -> notNegative b.
Proof.
  unfold notNegative. rewrite FloatAxioms.ltb_spec. unfold SFltb, SFcompare, SFnotNegative.
  destruct (Prim2SF a) as [sa|sa| |sa ma ea], (Prim2SF b) as [sb|sb| |sb mb eb];
    intros Ha Hlt; subst; try exact I; try discriminate;
    destruct sb; try reflexivity; discriminate.
Qed.

(** A value that is not negative and passed a test [_ <= _] is at least
    zero. *)
Lemma zero_leb_notNegative (v bound : float) :
  notNegative v -> PrimFloat.leb v bound = true ->
  PrimFloat.leb (float_of_Z 0) v = true.
Proof.
  unfold notNegative. rewrite !FloatAxioms.leb_spec.
  replace (Prim2SF (float_of_Z 0)) with (S754_zero false) by (vm_compute; reflexivity).
  unfold SFleb, SFcompare, SFnotNegative.
  destruct (Prim2SF v) as [sv|sv| |sv mv ev]; intros Hv Hle; subst;
    try reflexivity; destruct (Prim2SF bound); discriminate.
Qed.

(** C6, in binary64: for a width and a height above zero and any count,
    every position of a list that the placement returns has
    [0 <= x <= width] and [0 <= y <= height], the comparisons being those
    of the engine. *)
Theorem positions_within_the_area_in_binary64 (w h numFoci : float) (fuel : nat)
    (ds : list (Distance float)) :
  PrimFloat.ltb (float_of_Z 0) w = true ->
  PrimFloat.ltb (float_of_Z 0) h = true ->
  calculateDistances fuel {| width := w; height := h |} numFoci = Some ds ->
  Forall (fun p => PrimFloat.leb (float_of_Z 0) (x p) = true
                   /\ PrimFloat.leb (x p) w = true
                   /\ PrimFloat.leb (float_of_Z 0) (y p) = true
                   /\ PrimFloat.leb (y p) h = true) ds.
Proof.
  intros Hw Hh. destruct notNegative_literals as (H0 & H1 & H2).
  assert (Hnw : notNegative w) by exact (notNegative_above H0 Hw).
  assert (Hnh : notNegative h) by exact (notNegative_above H0 Hh).
  assert (Hnext : forall i, notNegative i -> notNegative (add i (lit 1))).
  { intros i Hi. now apply notNegative_add. }
  unfold calculateDistances. cbn [width height].
  apply (@for_loop_invariant_counter float float_number _ notNegative);
    [exact Hnext| |exact H0|constructor].
  intros row acc r Hrow Hrowlt Hacc.
  apply (@for_loop_invariant_counter float float_number _ notNegative);
    [exact Hnext| |exact H0|exact Hacc].
  intros col acc' r' Hcol Hcollt Hacc' Hstep.
  assert (Hnc : notNegative (numCols numFoci)) by exact (notNegative_above Hcol Hcollt).
  assert (Hnr : notNegative (numRows numFoci)) by exact (notNegative_above Hrow Hrowlt).
  destruct (leb _ w && leb _ h) eqn:Htest; injection Hstep as <-; [|exact Hacc'].
  apply andb_prop in Htest. destruct Htest as [Hx Hy].
  apply Forall_app. split; [exact Hacc'|]. constructor; [|constructor].
  cbn [x y]. repeat split; try assumption.
  - apply zero_leb_notNegative with (bound := w); [|exact Hx].
    apply notNegative_add; [|apply notNegative_mul; [exact Hcol|]];
      repeat apply notNegative_div; assumption.
  - apply zero_leb_notNegative with (bound := h); [|exact Hy].
    apply notNegative_add; [|apply notNegative_mul; [exact Hrow|]];
      repeat apply notNegative_div; assumption.
Qed.

End Binary64Facts.

(** ** The loops in exact arithmetic and runs in binary64 *)

Module ExactLoops.

Import Exact ExactLayout.
Local Open Scope R_scope.

Lemma counter_INR (k : nat) : counter k = INR k.
Proof.
  induction k as [|k IH]; [reflexivity|].
  change (counter (S k)) with (counter k + 1). rewrite IH, S_INR. reflexivity.
Qed.

(** Against an integer bound [m] the loop makes [m] rounds. *)
Lemma iterates_INR (m : nat) : iterates (INR m) m.
Proof.
  split.
  - intros j Hj. rewrite counter_INR. apply Rltb_true. now apply lt_INR.
  - rewrite counter_INR. apply Rltb_false. lra.
Qed.

(** In exact arithmetic the loops over the rows and the columns of an
    integer count from one on make [gridRows] and [gridCols] rounds. *)
Lemma iterates_grid (n : Z) :
  (1 <= n)%Z ->
  iterates (numRows (IZR n)) (Z.to_nat (gridRows n))
  /\ iterates (numCols (IZR n)) (Z.to_nat (gridCols n)).
Proof.
  intro Hn.
  destruct (gridCols_spec Hn) as (Hc1 & _). destruct (gridRows_spec Hn) as (Hr1 & _).
  split.
  - rewrite numRows_IZR, <- INR_to_nat by lia. apply iterates_INR.
  - rewrite numCols_IZR, <- INR_to_nat by lia. apply iterates_INR.
Qed.

End ExactLoops.

Module Binary64Runs.

Import Double.
Local Open Scope float_scope.
#[local] Set Warnings "-inexact-float".

(** The rounds of a loop, read off by running its test. *)
Lemma iterates_checked (bound : float) (m : nat) :
  forallb (fun j => ltb (counter j) bound) (seq 0 m) = true ->
  ltb (counter m) bound = false ->
  iterates bound m.
Proof.
  intros Hin Hout. split; [|exact Hout].
  intros j Hj. rewrite forallb_forall in Hin. apply Hin.
  apply in_seq. lia.
Qed.

(** In binary64 both loops stop for every count up to four thousand: the
    counter reaches the bound after finitely many rounds. *)
Lemma binary64_loops_stop :
  Forall (fun n =>
            exists nr nc,
              iterates (numRows (float_of_Z (Z.of_nat n))) nr
              /\ iterates (numCols (float_of_Z (Z.of_nat n))) nc)
         (seq 1 4000).
Proof.
  apply Forall_forall. intros n Hn.
  assert (Hall :
    forallb (fun n =>
               let c := float_of_Z (Z.of_nat n) in
               match find (fun j => negb (ltb (counter j) (numRows c))) (seq 0 100),
                     find (fun j => negb (ltb (counter j) (numCols c))) (seq 0 100)
               with
               | Some nr, Some nc =>
                   forallb (fun j => ltb (counter j) (numRows c)) (seq 0 nr)
                   && negb (ltb (counter nr) (numRows c))
                   && forallb (fun j => ltb (counter j) (numCols c)) (seq 0 nc)
                   && negb (ltb (counter nc) (numCols c))
               | _, _ => false
               end) (seq 1 4000) = true) by (vm_compute; reflexivity).
  rewrite forallb_forall in Hall. specialize (Hall n Hn). cbv zeta in Hall.
  destruct (find _ (seq 0 100)) as [nr|]; [|discriminate].
  destruct (find _ (seq 0 100)) as [nc|]; [|discriminate].
  apply andb_prop in Hall. destruct Hall as [Hall Hc2].
  apply andb_prop in Hall. destruct Hall as [Hall Hc1].
  apply andb_prop in Hall. destruct Hall as [Hr1 Hr2].
  exists nr, nc. split; apply iterates_checked; try assumption;
    now apply negb_true_iff.
Qed.


(** Five fixtures on a five by five area: three columns and two rows, six
    positions, all within the area. *)
Lemma positions_within_the_area_in_binary64_witness :
  PrimFloat.ltb (float_of_Z 0) 5 = true
  /\ exists ds,
       calculateDistances 10 {| width := 5; height := 5 |} 5 = Some ds
       /\ List.length ds = 6%nat
       /\ Forall (fun p => PrimFloat.leb (float_of_Z 0) (x p) = true
                           /\ PrimFloat.leb (x p) 5 = true
                           /\ PrimFloat.leb (float_of_Z 0) (y p) = true
                           /\ PrimFloat.leb (y p) 5 = true) ds.
Proof.
  split; [vm_compute; reflexivity|].
  eexists. split; [vm_compute; reflexivity|]. split; [reflexivity|].
  apply (@Binary64Facts.positions_within_the_area_in_binary64 5 5 5 10);
    vm_compute; reflexivity.
Defined.

(** After a calculation that stored four fixtures, a run on a negative
    illuminance is the alert alone and the four fixtures are still there;
    a run on valid values puts its own results in their place. *)
Lemma results_are_kept_exactly_when_the_guard_fires_witness :
  let prior :=
    {| focusCount := Some 4;
       distances := Some [{| x := 1; y := 0.75 |}; {| x := 3; y := 0.75 |};
                          {| x := 1; y := 2.25 |}; {| x := 3; y := 2.25 |}] |} in
  (handleCalculate 10 {| width := 5; height := 5 |} 50 (-3)
   = Some [Alert "Error" "Please enter valid values for lumens and luxes."]
   /\ runEffects prior [Alert "Error" "Please enter valid values for lumens and luxes."]
      = prior)
  /\ exists ds,
       handleCalculate 10 {| width := 5; height := 5 |} 50 10
       = Some [SetFocusCount 5; SetDistances ds]
       /\ runEffects prior [SetFocusCount 5; SetDistances ds]
          = {| focusCount := Some 5; distances := Some ds |}.
Proof.
  cbv zeta. split.
  - apply (proj1 (@results_are_kept_exactly_when_the_guard_fires float float_number
                    10 {| width := 5; height := 5 |} 50 (-3) _)).
    right. right. right. vm_compute. reflexivity.
  - assert (Hok : ~ (isNaN 50 = true \/ isNaN 10 = true
                      \/ leb 50 (lit 0) = true \/ leb 10 (lit 0) = true)).
    { intros [Hbad|[Hbad|[Hbad|Hbad]]]; vm_compute in Hbad; discriminate. }
    assert (Hrun : handleCalculate 10 {| width := 5; height := 5 |} 50 10
                   = Some [SetFocusCount 5;
                           SetDistances
                             [{| x := 0.83333333333333337; y := 1.25 |};
                              {| x := 2.5; y := 1.25 |};
                              {| x := 4.166666666666667; y := 1.25 |};
                              {| x := 0.83333333333333337; y := 3.75 |};
                              {| x := 2.5; y := 3.75 |};
                              {| x := 4.166666666666667; y := 3.75 |}]])
      by (vm_compute; reflexivity).
    destruct (proj2 (@results_are_kept_exactly_when_the_guard_fires float float_number
                       10 {| width := 5; height := 5 |} 50 10
                       {| focusCount := Some 4;
                          distances := Some [{| x := 1; y := 0.75 |}; {| x := 3; y := 0.75 |};
                                             {| x := 1; y := 2.25 |}; {| x := 3; y := 2.25 |}] |})
                    Hok _ Hrun) as (ds & Hes & Hst).
    exists ds. injection Hes as <-. split; [exact Hrun|]. vm_compute. reflexivity.
Defined.

End Binary64Runs.
